(** * SkinSeoul merchandising: the scoring engine of [models/scoring_model.py]

    A shallow embedding of [ProductScorer] (numeric coercion, schema
    normalisation, feature derivation, filtering, min-max normalisation,
    weighted scoring, ranking and the [process] orchestrator) over a small
    model of the pandas tables the code works on, followed by the properties
    of the engine.

    Numbers are IEEE-754 binary64 values (Rocq's primitive [float]), the
    [float64] of numpy, and 64-bit integers, its [int64].  A table is a list
    of row labels together with an ordered list of named columns; a column
    is a [float64], an [int64] or an [object] series.  Arithmetic follows the
    dtype of the columns: a numeric column keeps its dtype through the
    coercion, a difference of two [int64] values is an [int64] (it wraps
    around beyond the 64 bits), a quotient is a [float64], and an [int64]
    meets a [float64] through its [float64] value.  An exception leaving a
    function is the [None] of an [option]; of the log, the warnings of
    [calculate_scores] are kept, next to its result.

    Two things the engine takes from pandas without fixing them itself are
    kept as an interface ([Pandas]): the parser behind [pd.to_numeric] and
    the indexer behind [sort_values(..., ascending=False)].  Two sort kinds
    implement it, one that is stable and one that is not: the code names no
    kind, and the kind it gets by default promises no stability. *)

From Stdlib Require Import Floats ZArith String Ascii Bool Arith Lia List.
From Stdlib Require Import Sorting.Permutation Sorting.Sorted.
From Stdlib Require Uint63.
Import ListNotations.

(* ================================================================== *)
(** ** binary64 comparisons *)

Module F64.

Local Open Scope float_scope.

(** [series.fillna(d)] on one value. *)
Definition fillna (d x : float) : float := if is_nan x then d else x.

(** An [int64] value read as [float64] (round to nearest even).  The
    rounding of an integer is a number; the [fillna] carries that fact and
    is the identity on the [int64] range ([of_Z_int64]). *)
Definition of_Z (z : Z) : float :=
  fillna 0 (SF2Prim (binary_normalize prec emax z 0 false)).

Lemma SFcompare_opp (a b : spec_float) :
  SFcompare b a = option_map CompOpp (SFcompare a b).
Proof.
  destruct a as [sa|sa| |sa ma ea], b as [sb|sb| |sb mb eb]; simpl;
    try reflexivity;
    try (destruct sa; reflexivity); try (destruct sb; reflexivity);
    try (destruct sa, sb; reflexivity).
  destruct sa, sb; simpl; try reflexivity;
    rewrite (Z.compare_antisym ea eb);
    destruct (ea ?= eb)%Z; simpl; try reflexivity;
    change (PosDef.Pos.compare_cont Eq mb ma) with (Pos.compare mb ma);
    change (PosDef.Pos.compare_cont Eq ma mb) with (Pos.compare ma mb);
    rewrite (Pos.compare_antisym ma mb); reflexivity.
Qed.

Lemma SFcompare_refl (a : spec_float) :
  SFcompare a a = None \/ SFcompare a a = Some Eq.
Proof.
  destruct a as [s|s| |s m e]; simpl; auto; right.
  - destruct s; reflexivity.
  - rewrite Z.compare_refl.
    change (PosDef.Pos.compare_cont Eq m m) with (Pos.compare m m).
    rewrite Pos.compare_refl. destruct s; reflexivity.
Qed.

Lemma SFcompare_none (a b : spec_float) :
  SFcompare a b = None -> SFcompare a a = None \/ SFcompare b b = None.
Proof.
  destruct a as [sa|sa| |sa ma ea], b as [sb|sb| |sb mb eb];
    simpl; auto; discriminate.
Qed.

Lemma is_nan_compare (x : float) :
  is_nan x = false <-> SFcompare (Prim2SF x) (Prim2SF x) = Some Eq.
Proof.
  unfold is_nan. rewrite FloatAxioms.eqb_spec. unfold SFeqb.
  destruct (SFcompare_refl (Prim2SF x)) as [-> | ->]; simpl; split; congruence.
Qed.


Lemma eqb_refl (x : float) : is_nan x = false -> (x =? x) = true.
Proof. unfold is_nan. now destruct (x =? x). Qed.

Lemma ltb_negb_leb (x y : float) :
  is_nan x = false -> is_nan y = false -> (x <? y) = negb (y <=? x).
Proof.
  intros Hx Hy. rewrite ltb_spec, leb_spec. unfold SFltb, SFleb.
  rewrite (SFcompare_opp (Prim2SF x) (Prim2SF y)).
  destruct (SFcompare (Prim2SF x) (Prim2SF y)) as [[]|] eqn:E; try reflexivity.
  apply SFcompare_none in E.
  apply is_nan_compare in Hx, Hy. destruct E; congruence.
Qed.

Lemma leb_total (x y : float) :
  is_nan x = false -> is_nan y = false ->
  (x <=? y) = true \/ (y <=? x) = true.
Proof.
  intros Hx Hy. rewrite !leb_spec. unfold SFleb.
  rewrite (SFcompare_opp (Prim2SF x) (Prim2SF y)).
  destruct (SFcompare (Prim2SF x) (Prim2SF y)) as [[]|] eqn:E; simpl; auto.
  apply SFcompare_none in E.
  apply is_nan_compare in Hx, Hy. destruct E; congruence.
Qed.


Lemma ltb_leb_false (x y : float) : (x <? y) = true -> (y <=? x) = false.
Proof.
  rewrite ltb_spec, leb_spec. unfold SFleb, SFltb.
  rewrite (SFcompare_opp (Prim2SF x) (Prim2SF y)).
  destruct (SFcompare (Prim2SF x) (Prim2SF y)) as [[]|]; simpl; congruence.
Qed.

Lemma fillna_not_nan (d x : float) :
  is_nan d = false -> is_nan (fillna d x) = false.
Proof. intros Hd. unfold fillna. destruct (is_nan x) eqn:E; assumption. Qed.

Lemma fillna_id (d x : float) : is_nan x = false -> fillna d x = x.
Proof. intros H. unfold fillna. now rewrite H. Qed.

Lemma fillna_nan (d x : float) : is_nan x = true -> fillna d x = d.
Proof. intros H. unfold fillna. now rewrite H. Qed.

Lemma of_Z_not_nan (z : Z) : is_nan (of_Z z) = false.
Proof. unfold of_Z. now apply fillna_not_nan. Qed.

Lemma fillna_of_Z (d : float) (z : Z) : fillna d (of_Z z) = of_Z z.
Proof. apply fillna_id, of_Z_not_nan. Qed.

(** *** The rounding of an integer is a number *)

Lemma is_nan_SF (x : float) : is_nan x = true <-> Prim2SF x = S754_nan.
Proof.
  unfold is_nan. rewrite FloatAxioms.eqb_spec. unfold SFeqb.
  destruct (Prim2SF x) as [s|s| |s m e]; simpl.
  - split; discriminate.
  - destruct s; split; discriminate.
  - split; reflexivity.
  - rewrite Z.compare_refl.
    change (PosDef.Pos.compare_cont Eq m m) with (Pos.compare m m).
    rewrite Pos.compare_refl. destruct s; split; discriminate.
Qed.

Lemma shr_1_nonneg mrs : (0 <= shr_m mrs)%Z -> (0 <= shr_m (shr_1 mrs))%Z.
Proof.
  destruct mrs as [m r s]. destruct m as [|p|p]; simpl; intros H; try lia;
    destruct p; simpl; lia.
Qed.

Lemma iter_shr_1_nonneg p mrs :
  (0 <= shr_m mrs)%Z -> (0 <= shr_m (SpecFloat.iter_pos shr_1 p mrs))%Z.
Proof.
  revert mrs. induction p as [p IH|p IH|]; intros mrs H; simpl;
    auto using shr_1_nonneg.
Qed.

Lemma shr_fexp_nonneg m e l :
  (0 <= m)%Z -> (0 <= shr_m (fst (shr_fexp prec emax m e l)))%Z.
Proof.
  intros H. unfold shr_fexp, shr.
  assert (H0 : (0 <= shr_m (shr_record_of_loc m l))%Z)
    by (destruct l as [|[]]; exact H).
  destruct (_ - e)%Z; simpl; auto using iter_shr_1_nonneg.
Qed.

Lemma round_nearest_even_nonneg m l :
  (0 <= m)%Z -> (0 <= round_nearest_even m l)%Z.
Proof.
  intros H. destruct l as [|[]]; simpl; try lia. destruct (Z.even m); lia.
Qed.

Lemma binary_round_aux_not_nan sx mx ex lx :
  (0 <= mx)%Z -> binary_round_aux prec emax sx mx ex lx <> S754_nan.
Proof.
  intros H. unfold binary_round_aux.
  pose proof (shr_fexp_nonneg mx ex lx H) as H1.
  destruct (shr_fexp prec emax mx ex lx) as [mrs' e']. simpl in H1.
  pose proof (shr_fexp_nonneg _ e' loc_Exact
                (round_nearest_even_nonneg _ (loc_of_shr_record mrs') H1)) as H2.
  destruct (shr_fexp prec emax _ e' loc_Exact) as [mrs'' e'']. simpl in H2.
  destruct (shr_m mrs''); try discriminate; [|lia].
  destruct (_ <=? _)%Z; discriminate.
Qed.

Lemma binary_round_aux_opp mx ex lx :
  binary_round_aux prec emax true mx ex lx
  = SFopp (binary_round_aux prec emax false mx ex lx).
Proof.
  unfold binary_round_aux.
  destruct (shr_fexp prec emax mx ex lx) as [mrs' e'].
  destruct (shr_fexp prec emax _ e' loc_Exact) as [mrs'' e''].
  destruct (shr_m mrs''); try reflexivity.
  destruct (_ <=? _)%Z; reflexivity.
Qed.

Lemma binary_normalize_not_nan z :
  binary_normalize prec emax z 0 false <> S754_nan.
Proof.
  destruct z as [|p|p]; simpl; [discriminate| |];
    unfold binary_round; destruct (shl_align _ _ _) as [mz ez];
    apply binary_round_aux_not_nan; lia.
Qed.

Lemma binary_normalize_opp p :
  binary_normalize prec emax (Z.neg p) 0 false
  = SFopp (binary_normalize prec emax (Z.pos p) 0 false).
Proof.
  simpl. unfold binary_round. destruct (shl_align _ _ _) as [mz ez].
  apply binary_round_aux_opp.
Qed.

Lemma SFopp_not_nan x : x <> S754_nan -> SFopp x <> S754_nan.
Proof. destruct x; simpl; congruence. Qed.

Lemma rounding_uint63 z :
  (0 <= z < 9223372036854775808)%Z ->
  SF2Prim (binary_normalize prec emax z 0 false) = of_uint63 (Uint63.of_Z z).
Proof.
  intros H. rewrite <- (SF2Prim_Prim2SF (of_uint63 (Uint63.of_Z z))).
  rewrite of_uint63_spec, Uint63.of_Z_spec.
  rewrite Z.mod_small; [reflexivity|]. exact H.
Qed.

(** On the [int64] range the rounding is a number, so that [of_Z] is the
    rounding itself. *)
Lemma rounding_not_nan z :
  (- 9223372036854775808 <= z < 9223372036854775808)%Z ->
  is_nan (SF2Prim (binary_normalize prec emax z 0 false)) = false.
Proof.
  intros H. apply not_true_iff_false. rewrite is_nan_SF.
  destruct (Z.eq_dec z (- 9223372036854775808)) as [-> | Hne].
  { vm_compute. discriminate. }
  destruct z as [|p|p].
  - rewrite (rounding_uint63 0) by lia. rewrite of_uint63_spec.
    apply binary_normalize_not_nan.
  - rewrite (rounding_uint63 (Z.pos p)) by lia. rewrite of_uint63_spec.
    apply binary_normalize_not_nan.
  - assert (Hf : Prim2SF (of_uint63 (Uint63.of_Z (Z.pos p)))
                 = binary_normalize prec emax (Z.pos p) 0 false).
    { rewrite of_uint63_spec, Uint63.of_Z_spec, Z.mod_small; [reflexivity|].
      change Uint63.wB with 9223372036854775808%Z. lia. }
    rewrite binary_normalize_opp, <- Hf, <- FloatAxioms.opp_spec, SF2Prim_Prim2SF.
    rewrite FloatAxioms.opp_spec, Hf. apply SFopp_not_nan, binary_normalize_not_nan.
Qed.

Lemma of_Z_int64 z :
  (- 9223372036854775808 <= z < 9223372036854775808)%Z ->
  of_Z z = SF2Prim (binary_normalize prec emax z 0 false).
Proof.
  intros H. unfold of_Z, fillna. now rewrite rounding_not_nan.
Qed.

(** The order of the numbers, read on their sign, exponent and mantissa. *)
Definition key (x : spec_float) : Z * Z * Z :=
  match x with
  | S754_infinity true => (-2, 0, 0)%Z
  | S754_finite true m e => (-1, - e, Z.neg m)%Z
  | S754_zero _ => (0, 0, 0)%Z
  | S754_nan => (0, 0, 0)%Z
  | S754_finite false m e => (1, e, Z.pos m)%Z
  | S754_infinity false => (2, 0, 0)%Z
  end.





Lemma leb_refl (x : float) : is_nan x = false -> (x <=? x) = true.
Proof. intros H. destruct (leb_total x x H H); assumption. Qed.

Lemma leb_not_nan (x y : float) :
  (x <=? y) = true -> is_nan x = false /\ is_nan y = false.
Proof.
  rewrite leb_spec. unfold SFleb. intros H.
  split; apply is_nan_compare.
  - destruct (SFcompare_refl (Prim2SF x)) as [E | E]; auto.
    destruct (Prim2SF x); discriminate.
  - destruct (SFcompare_refl (Prim2SF y)) as [E | E]; auto.
    destruct (Prim2SF y); try discriminate.
    destruct (Prim2SF x); discriminate.
Qed.

End F64.

Import F64.

Local Open Scope string_scope.
Local Open Scope list_scope.

(* ================================================================== *)
(** ** Tables: series and data frames *)

(** A cell of an [object] column: a [str], or a missing value ([None] or
    [NaN]), which is how [read_csv] fills a text column. *)
Inductive obj : Type :=
| OStr (s : string)
| ONull.

(** A column, by dtype. *)
Inductive Series : Type :=
| FloatSeries (l : list float)
| IntSeries (l : list Z)
| ObjSeries (l : list obj).

Inductive cell : Type :=
| CFloat (x : float)
| CInt (z : Z)
| CObj (o : obj).

(** A table: the row labels and the columns in their order.  [read_csv] and
    [reset_index(drop=True)] give the labels 0, 1, ..., n-1; boolean
    selection and sorting carry each row's label along with it. *)
Record DataFrame : Type := mkFrame {
  index : list nat;
  columns : list (string * Series)
}.

Definition nrows (df : DataFrame) : nat := length (index df).

Definition series_len (s : Series) : nat :=
  match s with
  | FloatSeries l => length l
  | IntSeries l => length l
  | ObjSeries l => length l
  end.

(** The values of a numeric column read as [float64]. *)
Definition values (s : Series) : list float :=
  match s with
  | FloatSeries l => l
  | IntSeries l => map of_Z l
  | ObjSeries _ => []
  end.

(** [int64] arithmetic: a result beyond the 64 bits wraps around. *)
Definition wrap64 (z : Z) : Z :=
  ((z + 9223372036854775808) mod 18446744073709551616
   - 9223372036854775808)%Z.

Definition cell_at (s : Series) (i : nat) : option cell :=
  match s with
  | FloatSeries l => option_map CFloat (nth_error l i)
  | IntSeries l => option_map CInt (nth_error l i)
  | ObjSeries l => option_map CObj (nth_error l i)
  end.

(** [df.empty]: no rows or no columns. *)
Definition empty (df : DataFrame) : bool :=
  (nrows df =? 0)%nat || (length (columns df) =? 0)%nat.

(** [name in df.columns] and [df[name]]. *)
Fixpoint lookup (name : string) (cols : list (string * Series)) : option Series :=
  match cols with
  | [] => None
  | (c, x) :: rest => if String.eqb c name then Some x else lookup name rest
  end.

Definition get_col (name : string) (df : DataFrame) : option Series :=
  lookup name (columns df).

(** [df[name] = s]: an existing column is replaced where it stands, a new one
    is appended. *)
Fixpoint upsert (name : string) (s : Series) (cols : list (string * Series))
  : list (string * Series) :=
  match cols with
  | [] => [(name, s)]
  | (c, x) :: rest =>
      if String.eqb c name then (c, s) :: rest else (c, x) :: upsert name s rest
  end.

Definition set_col (name : string) (s : Series) (df : DataFrame) : DataFrame :=
  mkFrame (index df) (upsert name s (columns df)).

(** [df[name] = v] for a scalar [v]: broadcast over the rows. *)
Definition set_float_scalar (name : string) (v : float) (df : DataFrame) :=
  set_col name (FloatSeries (repeat v (nrows df))) df.

Definition set_int_scalar (name : string) (v : Z) (df : DataFrame) :=
  set_col name (IntSeries (repeat v (nrows df))) df.

Definition set_none (name : string) (df : DataFrame) :=
  set_col name (ObjSeries (repeat ONull (nrows df))) df.

(** Boolean selection [xs[mask]]: the entries whose mask bit is set. *)
Definition mask_filter {A : Type} (m : list bool) (l : list A) : list A :=
  map snd (filter fst (combine m l)).

Definition filter_series (m : list bool) (s : Series) : Series :=
  match s with
  | FloatSeries l => FloatSeries (mask_filter m l)
  | IntSeries l => IntSeries (mask_filter m l)
  | ObjSeries l => ObjSeries (mask_filter m l)
  end.

Definition map_columns (f : Series -> Series) (cols : list (string * Series)) :=
  map (fun c => (fst c, f (snd c))) cols.

(** [df[mask]]: rows keep their labels. *)
Definition filter_rows (m : list bool) (df : DataFrame) : DataFrame :=
  mkFrame (mask_filter m (index df)) (map_columns (filter_series m) (columns df)).

(** [df.reset_index(drop=True)]. *)
Definition reset_index (df : DataFrame) : DataFrame :=
  mkFrame (seq 0 (nrows df)) (columns df).

(** [df.take(indexer)]: the rows at the given positions, in that order. *)
Definition take_series (idx : list nat) (s : Series) : Series :=
  match s with
  | FloatSeries l => FloatSeries (map (fun i => nth i l nan) idx)
  | IntSeries l => IntSeries (map (fun i => nth i l 0%Z) idx)
  | ObjSeries l => ObjSeries (map (fun i => nth i l ONull) idx)
  end.

Definition take_rows (idx : list nat) (df : DataFrame) : DataFrame :=
  mkFrame (map (fun i => nth i (index df) 0%nat) idx)
          (map_columns (take_series idx) (columns df)).

(** [df.head(n)]: the first [n] rows; for a negative [n], all rows but the
    last [|n|]. *)
Definition head_count (n : Z) (len : nat) : nat :=
  if (0 <=? n)%Z then Nat.min (Z.to_nat n) len else len - Z.to_nat (- n).

Definition head_series (k : nat) (s : Series) : Series :=
  match s with
  | FloatSeries l => FloatSeries (firstn k l)
  | IntSeries l => IntSeries (firstn k l)
  | ObjSeries l => ObjSeries (firstn k l)
  end.

Definition head (n : Z) (df : DataFrame) : DataFrame :=
  let k := head_count n (nrows df) in
  mkFrame (firstn k (index df)) (map_columns (head_series k) (columns df)).

(** A series aligned to an index of [n] rows by position: cut, or filled
    with missing values. *)
Definition align_floats (n : nat) (l : list float) : list float :=
  firstn n l ++ repeat nan (n - length l).

Definition align (n : nat) (s : Series) : Series :=
  match s with
  | FloatSeries l => FloatSeries (align_floats n l)
  | IntSeries l =>
      if (n <=? length l)%nat then IntSeries (firstn n l)
      else FloatSeries (align_floats n (map of_Z l))
  | ObjSeries l => ObjSeries (firstn n l ++ repeat ONull (n - length l))
  end.

(** [df[name] = s] where [s] brings an index of its own (0..len-1): a frame
    that has no rows yet takes the index of a non-empty [s], any other frame
    aligns [s] to its rows. *)
Definition setitem (name : string) (s : Series) (df : DataFrame) : DataFrame :=
  if (nrows df =? 0)%nat && (0 <? series_len s)%nat then
    mkFrame (seq 0 (series_len s))
            (upsert name s (map_columns (align (series_len s)) (columns df)))
  else
    mkFrame (index df) (upsert name (align (nrows df) s) (columns df)).

(** [df[names]]: the named columns in the given order; [None] is the
    [KeyError] of a missing name. *)
Fixpoint select_columns (names : list string) (df : DataFrame)
  : option (list (string * Series)) :=
  match names with
  | [] => Some []
  | c :: rest =>
      match get_col c df, select_columns rest df with
      | Some s, Some cols => Some ((c, s) :: cols)
      | _, _ => None
      end
  end.

(** [pd.DataFrame(columns=names)]. *)
Definition empty_frame (names : list string) : DataFrame :=
  mkFrame [] (map (fun c => (c, ObjSeries [])) names).

(** The rows of a table, each as its named cells. *)
Definition row_at (df : DataFrame) (i : nat) : list (string * option cell) :=
  map (fun c => (fst c, cell_at (snd c) i)) (columns df).

Definition rows (df : DataFrame) : list (list (string * option cell)) :=
  map (row_at df) (seq 0 (nrows df)).

Definition column_names (df : DataFrame) : list string :=
  map fst (columns df).

(** Every column has one entry per row. *)
Definition aligned (df : DataFrame) : bool :=
  forallb (fun c => (series_len (snd c) =? nrows df)%nat) (columns df).

(** The labels are 0..n-1. *)
Definition range_index (df : DataFrame) : bool :=
  if list_eq_dec Nat.eq_dec (index df) (seq 0 (nrows df)) then true else false.

(** A table as [read_csv] hands it over. *)
Definition wf_frame (df : DataFrame) : bool := aligned df && range_index df.

(* ================================================================== *)
(** ** What the engine takes from pandas *)

(** Scores in rank order: each one is at least the next. *)
Definition descending (l : list float) : Prop :=
  Sorted (fun a b => (b <=? a)%float = true) l.

(** [to_numeric s] is [pd.to_numeric] with [errors='coerce'] on one string:
    the number the string denotes, [NaN] when it denotes none.
    [to_integer s] is the [int64] the string denotes when [pd.to_numeric]
    reads it as an integer: a column of strings that are all integers comes
    back as an [int64] column, any other as a [float64] column.
    [argsort_desc keys] is the indexer of
    [sort_values(..., ascending=False)] on a [float64] key column, and
    [argsort_desc_int keys] on an [int64] one: the positions of the rows in
    their new order.  pandas promises that it rearranges the rows and that
    keys that are numbers come out in descending order; with the default
    sort kind it promises nothing about rows of equal key. *)
Class Pandas : Type := {
  to_numeric : string -> float;
  to_integer : string -> option Z;
  to_integer_numeric :
    forall s z, to_integer s = Some z -> to_numeric s = of_Z z;
  argsort_desc : list float -> list nat;
  argsort_desc_perm :
    forall keys, Permutation (argsort_desc keys) (seq 0 (length keys));
  argsort_desc_sorted :
    forall keys, Forall (fun k => is_nan k = false) keys ->
      descending (map (fun i => nth i keys nan) (argsort_desc keys));
  argsort_desc_int : list Z -> list nat;
  argsort_desc_int_perm :
    forall keys, Permutation (argsort_desc_int keys) (seq 0 (length keys));
  argsort_desc_int_sorted :
    forall keys,
      Sorted (fun a b => (b <= a)%Z)
             (map (fun i => nth i keys 0%Z) (argsort_desc_int keys))
}.

(** The configuration held by a scorer. *)
Record Filters : Type := {
  min_stock : option float;
  max_inventory_days : option float
}.

Record WeightsConfig : Type := {
  cfg_scoring_weights : option (list (string * float));
  cfg_brand_tier_weights : option (list (string * float));
  cfg_filters : option Filters;
  cfg_top_n_products : option Z
}.

Record ProductScorer : Type := {
  scoring_weights : list (string * float);
  brand_tier_map : list (string * float);
  filters : Filters;
  default_top_n : Z
}.

Definition from_option {A : Type} (d : A) (o : option A) : A :=
  match o with Some a => a | None => d end.

(** [ProductScorer.__init__]. *)
Definition init (weights_config : WeightsConfig) : ProductScorer :=
  {| scoring_weights := from_option [] (cfg_scoring_weights weights_config);
     brand_tier_map := from_option [] (cfg_brand_tier_weights weights_config);
     filters := from_option {| min_stock := None; max_inventory_days := None |}
                            (cfg_filters weights_config);
     default_top_n := from_option 10%Z (cfg_top_n_products weights_config) |}.

Section Engine.

Context {backend : Pandas}.
Variable self : ProductScorer.

(** [.str.replace(',', '', regex=False)]. *)
Fixpoint remove_commas (s : string) : string :=
  match s with
  | EmptyString => EmptyString
  | String c r =>
      if Ascii.eqb c "," then remove_commas r else String c (remove_commas r)
  end.

(** One [object] cell through [astype(str)], the comma removal and
    [pd.to_numeric(..., errors='coerce')]: a missing value prints as a word
    that is no number. *)
Definition obj_to_numeric (o : obj) : float :=
  match o with
  | OStr s => to_numeric (remove_commas s)
  | ONull => nan
  end.

(** The values of the column [_to_numeric_robust] returns, read as
    [float64]: what a comparison with a threshold, a product with a weight
    or a sort key sees of it. *)
Definition to_numeric_robust (series : Series) (default_on_error : float)
  : list float :=
  match series with
  | FloatSeries l => map (fillna default_on_error) l
  | IntSeries l => map (fun z => fillna default_on_error (of_Z z)) l
  | ObjSeries l => map (fun o => fillna default_on_error (obj_to_numeric o)) l
  end.

Definition obj_to_integer (o : obj) : option Z :=
  match o with
  | OStr s => to_integer (remove_commas s)
  | ONull => None
  end.

(** The integers of a column of strings that are all integers. *)
Fixpoint all_integers (l : list obj) : option (list Z) :=
  match l with
  | [] => Some []
  | o :: rest =>
      match obj_to_integer o, all_integers rest with
      | Some z, Some zs => Some (z :: zs)
      | _, _ => None
      end
  end.

(** [_to_numeric_robust], the column it returns.  A numeric column keeps its
    dtype: [fillna] changes nothing in an [int64] column.  An [object] column
    goes through [pd.to_numeric], which gives [int64] when every string is
    an integer and [float64], with [NaN] for what does not parse, when not. *)
Definition numeric_robust (series : Series) (default_on_error : float)
  : Series :=
  match series with
  | FloatSeries l => FloatSeries (map (fillna default_on_error) l)
  | IntSeries l => IntSeries l
  | ObjSeries l =>
      match all_integers l with
      | Some zs => IntSeries zs
      | None =>
          FloatSeries
            (map (fun o => fillna default_on_error (obj_to_numeric o)) l)
      end
  end.

Definition column_map : list (string * string) :=
  [ ("Price (USD)", "price_usd"); ("COGS (USD)", "cogs_usd");
    ("Units in Stock", "units_in_stock");
    ("Days of Inventory", "days_of_inventory");
    ("Views Last Month", "views_last_month");
    ("Volume Sold Last Month", "volume_sold_last_month");
    ("Brand Tier", "brand_tier"); ("Product Name", "Product Name");
    ("Brand", "Brand") ].

Definition numeric_internal_cols : list string :=
  [ "price_usd"; "cogs_usd"; "units_in_stock"; "days_of_inventory";
    "views_last_month"; "volume_sold_last_month" ].

Definition mem (s : string) (l : list string) : bool :=
  existsb (String.eqb s) l.

Definition preprocess_step (processed_df : DataFrame) (item : string * string)
  : DataFrame :=
  let (csv_col, internal_col) := item in
  match get_col csv_col processed_df with
  | Some s =>
      if mem internal_col numeric_internal_cols then
        set_col internal_col (numeric_robust s 0) processed_df
      else if negb (String.eqb internal_col csv_col) then
        set_col internal_col s processed_df
      else processed_df
  | None =>
      if mem internal_col numeric_internal_cols then
        set_int_scalar internal_col 0 processed_df
      else set_none internal_col processed_df
  end.

(** [preprocess_data]. *)
Definition preprocess_data (df : DataFrame) : DataFrame :=
  fold_left preprocess_step column_map df.

(** [apply_filters] up to its last line: rows still carry their labels. *)
Definition filter_stage (df : DataFrame) : DataFrame :=
  let filtered_df :=
    match min_stock (filters self), get_col "units_in_stock" df with
    | Some ms, Some s =>
        let units := to_numeric_robust s 0 in
        filter_rows (map (fun u => (ms <=? u)%float) units) df
    | _, _ => df
    end in
  match max_inventory_days (filters self),
        get_col "days_of_inventory" filtered_df with
  | Some md, Some s =>
      let days := to_numeric_robust s infinity in
      filter_rows (map (fun d => (d <=? md)%float) days) filtered_df
  | _, _ => filtered_df
  end.

(** [apply_filters]. *)
Definition apply_filters (df : DataFrame) : DataFrame :=
  reset_index (filter_stage df).

(** [df.get(name, pd.Series(dtype='float64'))] through [_to_numeric_robust]:
    the values as [float64], and the column. *)
Definition get_numeric (name : string) (df : DataFrame) : list float :=
  match get_col name df with
  | Some s => to_numeric_robust s 0
  | None => []
  end.

Definition get_robust (name : string) (df : DataFrame) : Series :=
  match get_col name df with
  | Some s => numeric_robust s 0
  | None => FloatSeries []
  end.

(** One entry of [np.where(price > 0, (price - cogs) / price, 0)], then
    [fillna(0)], where price or cost is a [float64]. *)
Definition profit_margin_of (price cogs : float) : float :=
  fillna 0 (if (0 <? price)%float then ((price - cogs) / price)%float
            else 0%float).

(** The same entry where price and cost are both [int64]: the difference is
    taken in [int64], the quotient in [float64]. *)
Definition profit_margin_int (price cogs : Z) : float :=
  fillna 0 (if (0 <? price)%Z
            then (of_Z (wrap64 (price - cogs)) / of_Z price)%float
            else 0%float).

Definition profit_margins (price cogs : Series) : list float :=
  match price, cogs with
  | IntSeries ps, IntSeries cs =>
      map (fun pc => profit_margin_int (fst pc) (snd pc)) (combine ps cs)
  | _, _ =>
      map (fun pc => profit_margin_of (fst pc) (snd pc))
          (combine (values price) (values cogs))
  end.

Fixpoint assoc (k : string) (m : list (string * float)) : option float :=
  match m with
  | [] => None
  | (k', v) :: rest => if String.eqb k' k then Some v else assoc k rest
  end.

(** [series.map(brand_tier_map)]: a tier that is no key of the mapping gives
    [NaN]; the keys are tier names, so a number is never one. *)
Definition map_tier (o : obj) : float :=
  match o with
  | OStr s => from_option nan (assoc s (brand_tier_map self))
  | ONull => nan
  end.

Definition series_map (s : Series) : list float :=
  match s with
  | ObjSeries l => map map_tier l
  | FloatSeries l => map (fun _ => nan) l
  | IntSeries l => map (fun _ => nan) l
  end.

(** [calculate_features].  [None] is the [ValueError] of
    [pd.Series(profit_margin_array, index=f_df.index)] when there is no
    [price_usd] column although the table has rows.  A column that is not
    there is read as the empty [float64] default, which lies over the rows
    as missing values. *)
Definition calculate_features (df : DataFrame) : option DataFrame :=
  let n := nrows df in
  let price :=
    match get_col "price_usd" df with
    | Some s => Some (numeric_robust s 0)
    | None => if (n =? 0)%nat then Some (FloatSeries []) else None
    end in
  let cogs := align n (get_robust "cogs_usd" df) in
  match price with
  | None => None
  | Some price =>
      let f_df :=
        set_col "profit_margin" (FloatSeries (profit_margins price cogs)) df in
      let f_df :=
        set_col "sales_velocity"
          (align n (get_robust "volume_sold_last_month" f_df)) f_df in
      let f_df :=
        set_col "engagement"
          (align n (get_robust "views_last_month" f_df)) f_df in
      Some
        match get_col "brand_tier" f_df, brand_tier_map self with
        | Some s, _ :: _ =>
            set_col "brand_tier_weight"
                    (FloatSeries (map (fillna 0) (series_map s))) f_df
        | _, _ => set_int_scalar "brand_tier_weight" 0 f_df
        end
  end.

(** [series.min()] and [series.max()]: missing values are skipped, an empty
    series gives [NaN]. *)
Definition dropna (l : list float) : list float :=
  filter (fun x => negb (is_nan x)) l.

Definition series_min (l : list float) : float :=
  match dropna l with
  | [] => nan
  | x :: rest => fold_left (fun m y => if (y <? m)%float then y else m) rest x
  end.

Definition series_max (l : list float) : float :=
  match dropna l with
  | [] => nan
  | x :: rest => fold_left (fun m y => if (m <? y)%float then y else m) rest x
  end.

Definition features_to_normalize : list string :=
  [ "sales_velocity"; "profit_margin"; "engagement"; "brand_tier_weight" ].

Definition norm_name (feature : string) : string :=
  String.append "norm_" feature.

(** [series.min()] and [series.max()] of an [int64] column. *)
Definition int_min (l : list Z) : Z :=
  match l with
  | [] => 0%Z
  | x :: rest => fold_left Z.min rest x
  end.

Definition int_max (l : list Z) : Z :=
  match l with
  | [] => 0%Z
  | x :: rest => fold_left Z.max rest x
  end.

(** One turn of the loop of [normalize_features].  On an [int64] feature
    the minimum, the maximum and the two differences are [int64] values and
    the quotient is a [float64]; on a [float64] feature all is [float64]. *)
Definition normalize_step (norm_df : DataFrame) (feature : string) : DataFrame :=
  match get_col feature norm_df with
  | Some s =>
      if negb (series_len s =? 0)%nat then
        match numeric_robust s 0 with
        | IntSeries series =>
            let min_v := int_min series in
            let max_v := int_max series in
            if (min_v <? max_v)%Z then
              set_col (norm_name feature)
                (FloatSeries
                   (map (fun v => (of_Z (wrap64 (v - min_v))
                                   / of_Z (wrap64 (max_v - min_v)))%float)
                        series))
                norm_df
            else if (max_v =? min_v)%Z && negb (max_v =? 0)%Z then
              set_float_scalar (norm_name feature) 1 norm_df
            else set_float_scalar (norm_name feature) 0 norm_df
        | coerced =>
            let series := values coerced in
            let min_v := series_min series in
            let max_v := series_max series in
            if (min_v <? max_v)%float then
              set_col (norm_name feature)
                (FloatSeries
                   (map (fun v => ((v - min_v) / (max_v - min_v))%float)
                        series))
                norm_df
            else if (max_v =? min_v)%float && negb (max_v =? 0)%float then
              set_float_scalar (norm_name feature) 1 norm_df
            else set_float_scalar (norm_name feature) 0 norm_df
        end
      else set_float_scalar (norm_name feature) 0 norm_df
  | None => set_float_scalar (norm_name feature) 0 norm_df
  end.

(** [normalize_features]. *)
Definition normalize_features (df : DataFrame) : DataFrame :=
  fold_left normalize_step features_to_normalize df.

(** The normalised column a scoring weight points at. *)
Definition norm_col_of (component : string) : string :=
  norm_name (if String.eqb component "brand_tier" then "brand_tier_weight"
             else component).

Definition float_column (name : string) (df : DataFrame) : list float :=
  match get_col name df with
  | Some (FloatSeries l) => l
  | _ => []
  end.

Definition missing_component_warning (norm_col component : string) : string :=
  String.append "Normalized component '"
    (String.append norm_col
       (String.append "' for scoring (weight='"
          (String.append component "') not found."))).

(** One turn of the loop of [calculate_scores], on the table and the
    warnings logged so far. *)
Definition score_step (st : DataFrame * list string) (item : string * float)
  : DataFrame * list string :=
  let (score_df, log) := st in
  let (component, weight) := item in
  let norm_col := norm_col_of component in
  match get_col norm_col score_df with
  | Some s =>
      let values := to_numeric_robust s 0 in
      (set_col "score"
         (FloatSeries
            (map (fun sv => (fst sv + weight * snd sv)%float)
                 (combine (float_column "score" score_df) values)))
         score_df,
       log)
  | None => (score_df, log ++ [missing_component_warning norm_col component])
  end.

(** [calculate_scores], with the warnings it logs. *)
Definition calculate_scores (df : DataFrame) : DataFrame * list string :=
  fold_left score_step (scoring_weights self)
            (set_float_scalar "score" 0 df, []).

(** The indexer of [sort_values] on a coerced key column. *)
Definition sort_indexer (key : Series) : list nat :=
  match key with
  | IntSeries l => argsort_desc_int l
  | other => argsort_desc (values other)
  end.

(** The first two lines of [rank_products]: the [score] column coerced (a
    table without one gets a column of missing values, the empty default
    aligned to the rows) and the rows sorted on it, labels kept. *)
Definition sort_stage (df : DataFrame) : DataFrame :=
  let score := align (nrows df) (get_robust "score" df) in
  take_rows (sort_indexer score) (set_col "score" score df).

(** [rank_products]. *)
Definition rank_products (df : DataFrame) (top_n : Z) : DataFrame :=
  let ranked := reset_index (sort_stage df) in
  let ranked :=
    set_col "rank" (IntSeries (map Z.of_nat (seq 1 (nrows ranked)))) ranked in
  head top_n ranked.

Definition out_cols : list string :=
  [ "Product Name"; "Brand"; "Price (USD)"; "score"; "rank" ].

(** [ranked.get(name, pd.Series(dtype=...))]. *)
Definition get_or (name : string) (default : Series) (df : DataFrame) : Series :=
  from_option default (get_col name df).

(** The output table of [process], built column by column. *)
Definition final_output (ranked : DataFrame) : DataFrame :=
  let final_output_df := mkFrame [] [] in
  let final_output_df :=
    setitem "Product Name" (get_or "Product Name" (ObjSeries []) ranked)
            final_output_df in
  let final_output_df :=
    setitem "Brand" (get_or "Brand" (ObjSeries []) ranked) final_output_df in
  let final_output_df :=
    setitem "Price (USD)" (get_or "price_usd" (FloatSeries []) ranked)
            final_output_df in
  let final_output_df :=
    setitem "score" (get_or "score" (FloatSeries []) ranked) final_output_df in
  setitem "rank" (get_or "rank" (IntSeries []) ranked) final_output_df.

(** [process].  [None] stands for an exception leaving the function. *)
Definition process (df : DataFrame) (top_n : option Z) : option DataFrame :=
  let effective_top_n := from_option (default_top_n self) top_n in
  if empty df then Some (empty_frame out_cols)
  else
    let x := preprocess_data df in
    match calculate_features x with
    | None => None
    | Some x =>
        let x := apply_filters x in
        if empty x then Some (empty_frame out_cols)
        else
          let x := normalize_features x in
          let x := fst (calculate_scores x) in
          let ranked := rank_products x effective_top_n in
          let final_output_df := final_output ranked in
          match select_columns out_cols final_output_df with
          | Some cols => Some (mkFrame (index final_output_df) cols)
          | None => None
          end
    end.

End Engine.

(* ================================================================== *)
(** ** Record-level readings used to state the properties *)

Section Readings.

Context {backend : Pandas}.
Variable self : ProductScorer.

(** The number a cell stands for before any default is filled in. *)
Definition numeric_cell (c : cell) : float :=
  match c with
  | CFloat x => x
  | CInt z => of_Z z
  | CObj o => obj_to_numeric o
  end.





(** One configured weight added to the running score of record [i]: weight
    times normalised feature, nothing when the normalised column is absent. *)
Definition add_component (df : DataFrame) (i : nat) (acc : float)
           (item : string * float) : float :=
  match get_col (norm_col_of (fst item)) df with
  | Some s => (acc + snd item * nth i (to_numeric_robust s 0) nan)%float
  | None => acc
  end.

Definition warning_of (df : DataFrame) (item : string * float) : list string :=
  match get_col (norm_col_of (fst item)) df with
  | Some _ => []
  | None => [missing_component_warning (norm_col_of (fst item)) (fst item)]
  end.

(** The score of record [i] as the contract words it: the sum over the
    configured weights, in their order. *)
Definition weighted_sum (df : DataFrame) (i : nat) : float :=
  fold_left (add_component df i) (scoring_weights self) 0%float.

(** The warnings the contract asks for: one per configured weight whose
    normalised column is absent, in the order of the weights. *)
Definition expected_warnings (df : DataFrame) : list string :=
  flat_map (warning_of df) (scoring_weights self).

(** The cells of a column, whatever its dtype. *)
Definition series_cells (s : Series) : list cell :=
  match s with
  | FloatSeries l => map CFloat l
  | IntSeries l => map CInt l
  | ObjSeries l => map CObj l
  end.

Definition column_cells (name : string) (df : DataFrame) : list cell :=
  match get_col name df with
  | Some s => series_cells s
  | None => []
  end.

(** Rows of equal score stand in the order of their labels. *)
Definition ties_keep_order (df : DataFrame) : Prop :=
  ForallOrdPairs
    (fun a b => (snd a =? snd b)%float = true -> fst a < fst b)
    (combine (index df) (float_column "score" df)).

(** The column [normalize_step] assigns, as a function of the feature column
    it reads and the number of rows. *)
Definition normalized (col : option Series) (n : nat) : Series :=
  match col with
  | Some s =>
      if negb (series_len s =? 0)%nat then
        match numeric_robust s 0 with
        | IntSeries series =>
            let min_v := int_min series in
            let max_v := int_max series in
            if (min_v <? max_v)%Z then
              FloatSeries
                (map (fun v => (of_Z (wrap64 (v - min_v))
                                / of_Z (wrap64 (max_v - min_v)))%float)
                     series)
            else if (max_v =? min_v)%Z && negb (max_v =? 0)%Z then
              FloatSeries (repeat 1%float n)
            else FloatSeries (repeat 0%float n)
        | coerced =>
            let series := values coerced in
            let min_v := series_min series in
            let max_v := series_max series in
            if (min_v <? max_v)%float then
              FloatSeries
                (map (fun v => ((v - min_v) / (max_v - min_v))%float) series)
            else if (max_v =? min_v)%float && negb (max_v =? 0)%float then
              FloatSeries (repeat 1%float n)
            else FloatSeries (repeat 0%float n)
        end
      else FloatSeries (repeat 0%float n)
  | None => FloatSeries (repeat 0%float n)
  end.

(** The table that reaches the ranker. *)
Definition scored (x : DataFrame) : DataFrame :=
  fst (calculate_scores self (normalize_features (apply_filters self x))).

(** A table [d] made of rows of [df0], named by their labels in rising
    order. *)
Definition selection_of (df0 d : DataFrame) : Prop :=
  d = take_rows (index d) df0 /\
  StronglySorted lt (index d) /\
  Forall (fun p => p < nrows df0) (index d).

End Readings.

(* ================================================================== *)
(** ** Two sort kinds and a parser *)

Module Backends.

Section Insertion.

(** [before x y] decides whether key [y] stays ahead of a new key [x]. *)
Variable before : float -> float -> bool.
Hypothesis before_true :
  forall x y, is_nan x = false -> is_nan y = false ->
    before x y = true -> (x <=? y)%float = true.
Hypothesis before_false :
  forall x y, is_nan x = false -> is_nan y = false ->
    before x y = false -> (y <=? x)%float = true.

Fixpoint insert (x : float * nat) (l : list (float * nat)) : list (float * nat) :=
  match l with
  | [] => [x]
  | y :: rest =>
      if before (fst x) (fst y) then y :: insert x rest else x :: y :: rest
  end.

Definition isort (l : list (float * nat)) : list (float * nat) :=
  fold_right insert [] l.

Definition argsort (keys : list float) : list nat :=
  map snd (isort (combine keys (seq 0 (length keys)))).

Lemma insert_perm x l : Permutation (insert x l) (x :: l).
Proof.
  induction l as [|y rest IH]; simpl; auto.
  destruct (before (fst x) (fst y)); auto.
  rewrite IH. apply perm_swap.
Qed.

Lemma isort_perm l : Permutation (isort l) l.
Proof.
  induction l as [|x l IH]; simpl; auto.
  rewrite insert_perm. now constructor.
Qed.

Lemma snd_combine_seq (keys : list float) a :
  map snd (combine keys (seq a (length keys))) = seq a (length keys).
Proof.
  revert a. induction keys as [|k keys IH]; intros a; simpl; auto.
  now rewrite IH.
Qed.

Lemma argsort_perm keys : Permutation (argsort keys) (seq 0 (length keys)).
Proof.
  unfold argsort. rewrite <- (snd_combine_seq keys 0) at 2.
  apply Permutation_map, isort_perm.
Qed.

Definition by_key : float * nat -> float * nat -> Prop :=
  fun a b => (fst b <=? fst a)%float = true.

Lemma insert_sorted x l :
  is_nan (fst x) = false -> Forall (fun y => is_nan (fst y) = false) l ->
  Sorted by_key l -> Sorted by_key (insert x l).
Proof.
  intros Hx Hl Hs. induction l as [|y rest IH]; simpl.
  - repeat constructor.
  - inversion Hl as [|? ? Hy Hrest]; subst.
    apply Sorted_inv in Hs as [Hs Hhd].
    destruct (before (fst x) (fst y)) eqn:E.
    + constructor; [now apply IH|].
      destruct rest as [|z rest']; simpl.
      * constructor. apply before_true; auto.
      * destruct (before (fst x) (fst z)).
        -- constructor. now inversion Hhd.
        -- constructor. apply before_true; auto.
    + constructor; [now constructor|].
      constructor. apply before_false; auto.
Qed.

Lemma isort_sorted l :
  Forall (fun y => is_nan (fst y) = false) l -> Sorted by_key (isort l).
Proof.
  induction l as [|x l IH]; intros H; simpl; [constructor|].
  inversion H; subst. apply insert_sorted; auto.
  eapply Permutation_Forall; [symmetry; apply isort_perm | assumption].
Qed.

Lemma combine_seq_nth (keys : list float) a p :
  In p (combine keys (seq a (length keys))) ->
  nth (snd p - a) keys nan = fst p /\ a <= snd p.
Proof.
  revert a. induction keys as [|k keys IH]; intros a; simpl; [tauto|].
  intros [<- | H]; simpl.
  - now rewrite Nat.sub_diag.
  - apply IH in H as [H1 H2]. split; [|lia].
    replace (snd p - a) with (S (snd p - S a)) by lia. exact H1.
Qed.

Lemma Sorted_map {A B} (f : A -> B) (R : B -> B -> Prop) l :
  Sorted (fun a b => R (f a) (f b)) l -> Sorted R (map f l).
Proof.
  induction 1 as [|a l Hs IH Hhd]; simpl; constructor; auto.
  destruct Hhd; simpl; constructor; auto.
Qed.

Lemma argsort_sorted keys :
  Forall (fun k => is_nan k = false) keys ->
  descending (map (fun i => nth i keys nan) (argsort keys)).
Proof.
  intros Hk. unfold argsort, descending. rewrite map_map.
  set (l := combine keys (seq 0 (length keys))).
  assert (Hl : Forall (fun y => is_nan (fst y) = false) l).
  { apply Forall_forall. intros [k i] Hin.
    apply in_combine_l in Hin. simpl.
    now apply (proj1 (Forall_forall _ _) Hk). }
  assert (Hfst : map (fun p => nth (snd p) keys nan) (isort l) = map fst (isort l)).
  { apply map_ext_in. intros p Hp.
    apply (Permutation_in _ (isort_perm l)) in Hp.
    apply combine_seq_nth in Hp as [Hp _]. now rewrite Nat.sub_0_r in Hp. }
  rewrite Hfst. apply Sorted_map. now apply isort_sorted.
Qed.

End Insertion.

(** A parser for plain decimal integers with an optional sign, standing in
    for [pd.to_numeric] on the examples. *)
Definition digit_of (c : ascii) : option Z :=
  let n := nat_of_ascii c in
  if (48 <=? n)%nat && (n <=? 57)%nat then Some (Z.of_nat (n - 48)) else None.

Fixpoint parse_digits (acc : Z) (s : string) : option Z :=
  match s with
  | EmptyString => Some acc
  | String c r =>
      match digit_of c with
      | Some d => parse_digits (10 * acc + d) r
      | None => None
      end
  end.

Definition parse_Z (s : string) : option Z :=
  match s with
  | EmptyString => None
  | String "-" r =>
      match r with
      | EmptyString => None
      | _ => option_map Z.opp (parse_digits 0 r)
      end
  | _ => parse_digits 0 s
  end.

Definition parse_integer (s : string) : float :=
  from_option nan (option_map of_Z (parse_Z s)).

(** The integer a string denotes, when it fits the 64 bits. *)
Definition parse_int64 (s : string) : option Z :=
  match parse_Z s with
  | Some z =>
      if ((-9223372036854775808 <=? z) && (z <=? 9223372036854775807))%Z
      then Some z else None
  | None => None
  end.

Lemma parse_int64_numeric s z :
  parse_int64 s = Some z -> parse_integer s = of_Z z.
Proof.
  unfold parse_int64, parse_integer.
  destruct (parse_Z s) as [z'|]; [|discriminate].
  destruct (_ && _); [|discriminate]. now intros [= ->].
Qed.

Lemma ltb_leb (x y : float) :
  is_nan x = false -> is_nan y = false ->
  (x <? y)%float = true -> (x <=? y)%float = true.
Proof.
  intros Hx Hy H. apply ltb_leb_false in H.
  destruct (leb_total x y Hx Hy) as [L | L]; congruence.
Qed.

Lemma ltb_false_leb (x y : float) :
  is_nan x = false -> is_nan y = false ->
  (x <? y)%float = false -> (y <=? x)%float = true.
Proof.
  intros Hx Hy H. rewrite (ltb_negb_leb x y Hx Hy) in H.
  now destruct (y <=? x)%float.
Qed.

Section IntInsertion.

(** The same sort on [int64] keys. *)
Variable before : Z -> Z -> bool.
Hypothesis before_true : forall x y, before x y = true -> (x <= y)%Z.
Hypothesis before_false : forall x y, before x y = false -> (y <= x)%Z.

Fixpoint insert_int (x : Z * nat) (l : list (Z * nat)) : list (Z * nat) :=
  match l with
  | [] => [x]
  | y :: rest =>
      if before (fst x) (fst y) then y :: insert_int x rest
      else x :: y :: rest
  end.

Definition isort_int (l : list (Z * nat)) : list (Z * nat) :=
  fold_right insert_int [] l.

Definition argsort_int (keys : list Z) : list nat :=
  map snd (isort_int (combine keys (seq 0 (length keys)))).

Lemma insert_int_perm x l : Permutation (insert_int x l) (x :: l).
Proof.
  induction l as [|y rest IH]; simpl; auto.
  destruct (before (fst x) (fst y)); auto.
  rewrite IH. apply perm_swap.
Qed.

Lemma isort_int_perm l : Permutation (isort_int l) l.
Proof.
  induction l as [|x l IH]; simpl; auto.
  rewrite insert_int_perm. now constructor.
Qed.

Lemma snd_combine_seq_int (keys : list Z) a :
  map snd (combine keys (seq a (length keys))) = seq a (length keys).
Proof.
  revert a. induction keys as [|k keys IH]; intros a; simpl; auto.
  now rewrite IH.
Qed.

Lemma argsort_int_perm keys :
  Permutation (argsort_int keys) (seq 0 (length keys)).
Proof.
  unfold argsort_int. rewrite <- (snd_combine_seq_int keys 0) at 2.
  apply Permutation_map, isort_int_perm.
Qed.

Definition by_int_key : Z * nat -> Z * nat -> Prop :=
  fun a b => (fst b <= fst a)%Z.

Lemma insert_int_sorted x l :
  Sorted by_int_key l -> Sorted by_int_key (insert_int x l).
Proof.
  intros Hs. induction l as [|y rest IH]; simpl.
  - repeat constructor.
  - apply Sorted_inv in Hs as [Hs Hhd].
    destruct (before (fst x) (fst y)) eqn:E.
    + constructor; [now apply IH|].
      destruct rest as [|z rest']; simpl.
      * constructor. now apply before_true.
      * destruct (before (fst x) (fst z)).
        -- constructor. now inversion Hhd.
        -- constructor. now apply before_true.
    + constructor; [now constructor|].
      constructor. now apply before_false.
Qed.

Lemma isort_int_sorted l : Sorted by_int_key (isort_int l).
Proof.
  induction l as [|x l IH]; simpl; [constructor|].
  now apply insert_int_sorted.
Qed.

Lemma combine_seq_nth_int (keys : list Z) a p :
  In p (combine keys (seq a (length keys))) ->
  nth (snd p - a) keys 0%Z = fst p /\ a <= snd p.
Proof.
  revert a. induction keys as [|k keys IH]; intros a; simpl; [tauto|].
  intros [<- | H]; simpl.
  - now rewrite Nat.sub_diag.
  - apply IH in H as [H1 H2]. split; [|lia].
    replace (snd p - a) with (S (snd p - S a)) by lia. exact H1.
Qed.

Lemma argsort_int_sorted keys :
  Sorted (fun a b => (b <= a)%Z)
         (map (fun i => nth i keys 0%Z) (argsort_int keys)).
Proof.
  unfold argsort_int. rewrite map_map.
  set (l := combine keys (seq 0 (length keys))).
  assert (Hfst : map (fun p => nth (snd p) keys 0%Z) (isort_int l)
                 = map fst (isort_int l)).
  { apply map_ext_in. intros p Hp.
    apply (Permutation_in _ (isort_int_perm l)) in Hp.
    apply combine_seq_nth_int in Hp as [Hp _].
    now rewrite Nat.sub_0_r in Hp. }
  rewrite Hfst. apply Sorted_map, isort_int_sorted.
Qed.

End IntInsertion.

Lemma Zltb_le x y : (x <? y)%Z = true -> (x <= y)%Z.
Proof. intros H. apply Z.ltb_lt in H. lia. Qed.

Lemma Zltb_false_le x y : (x <? y)%Z = false -> (y <= x)%Z.
Proof. intros H. apply Z.ltb_ge in H. lia. Qed.

Lemma Zleb_le x y : (x <=? y)%Z = true -> (x <= y)%Z.
Proof. apply Z.leb_le. Qed.

Lemma Zleb_false_le x y : (x <=? y)%Z = false -> (y <= x)%Z.
Proof. intros H. apply Z.leb_gt in H. lia. Qed.

Lemma leb_false_leb (x y : float) :
  is_nan x = false -> is_nan y = false ->
  (x <=? y)%float = false -> (y <=? x)%float = true.
Proof.
  intros Hx Hy H. destruct (leb_total x y Hx Hy) as [L | L]; congruence.
Qed.

(** A stable kind: a row passes only rows of strictly larger key. *)
Definition stable : Pandas := {|
  to_numeric := parse_integer;
  to_integer := parse_int64;
  to_integer_numeric := parse_int64_numeric;
  argsort_desc := argsort PrimFloat.ltb;
  argsort_desc_perm := argsort_perm PrimFloat.ltb;
  argsort_desc_sorted := argsort_sorted PrimFloat.ltb ltb_leb ltb_false_leb;
  argsort_desc_int := argsort_int Z.ltb;
  argsort_desc_int_perm := argsort_int_perm Z.ltb;
  argsort_desc_int_sorted := argsort_int_sorted Z.ltb Zltb_le Zltb_false_le
|}.

(** A kind that is not stable: a row passes the rows of larger or equal key,
    so of the rows of equal key the later one comes first.  It keeps every
    promise of [sort_values] called with no [kind], which is how the code
    calls it. *)
Definition reversing : Pandas := {|
  to_numeric := parse_integer;
  to_integer := parse_int64;
  to_integer_numeric := parse_int64_numeric;
  argsort_desc := argsort PrimFloat.leb;
  argsort_desc_perm := argsort_perm PrimFloat.leb;
  argsort_desc_sorted :=
    argsort_sorted PrimFloat.leb (fun x y _ _ H => H) leb_false_leb;
  argsort_desc_int := argsort_int Z.leb;
  argsort_desc_int_perm := argsort_int_perm Z.leb;
  argsort_desc_int_sorted := argsort_int_sorted Z.leb Zleb_le Zleb_false_le
|}.

End Backends.

(* ================================================================== *)
(** ** Example tables and scorers *)

Module Examples.

(** The table of [tests/test_scoring.py], with one inventory age missing and
    one written with a thousands separator. *)
Definition sample_data : DataFrame :=
  mkFrame [0; 1; 2]
    [ ("Product Name",
       ObjSeries [OStr "Product A"; OStr "Product B"; OStr "Product C"]);
      ("Brand", ObjSeries [OStr "Brand X"; OStr "Brand Y"; OStr "Brand Z"]);
      ("Brand Tier", ObjSeries [OStr "A"; OStr "B"; OStr "C"]);
      ("Price (USD)", IntSeries [100; 50; 30]%Z);
      ("COGS (USD)", IntSeries [40; 25; 15]%Z);
      ("Days of Inventory", ObjSeries [OStr "30"; ONull; OStr "6,0"]);
      ("Units in Stock", IntSeries [50; 20; 5]%Z);
      ("Views Last Month", IntSeries [1000; 500; 200]%Z);
      ("Volume Sold Last Month", IntSeries [100; 50; 10]%Z) ].

(** A scorer with the thresholds the tests assume (at least 10 in stock, at
    most 90 days of inventory) and one weight that names no feature. *)
Definition sample_scorer : ProductScorer :=
  {| scoring_weights :=
       [ ("sales_velocity", 0.5%float); ("profit_margin", 0.25%float);
         ("brand_tier", 0.25%float); ("bogus", 1%float) ];
     brand_tier_map := [ ("A", 1%float); ("B", 0.5%float) ];
     filters := {| min_stock := Some 10%float;
                   max_inventory_days := Some 90%float |};
     default_top_n := 10 |}.

(** [sample_data] as it leaves [preprocess_data] and [calculate_features]. *)
Definition sample_features : DataFrame :=
  from_option (mkFrame [] [])
    (calculate_features (backend := Backends.stable) sample_scorer
       (preprocess_data (backend := Backends.stable) sample_data)).


(** A canonical table of three records, the last with an unusable
    [days_of_inventory]. *)
Definition canonical_data : DataFrame :=
  mkFrame [0; 1; 2]
    [ ("Product Name", ObjSeries [OStr "A"; OStr "B"; OStr "C"]);
      ("units_in_stock", FloatSeries [100; 5; 30]%float);
      ("days_of_inventory", FloatSeries [30; 20; nan]%float) ].



Definition two_records : DataFrame :=
  mkFrame [0; 1]
    [ ("sales_velocity", FloatSeries [10; 30]%float);
      ("profit_margin", FloatSeries [0.5; 0.5]%float);
      ("engagement", IntSeries [9007199254740992; 9007199254740993]%Z) ].

(** Eighteen records with a name and a price and nothing else. *)
Definition product_names : list obj :=
  map OStr
    [ "P01"; "P02"; "P03"; "P04"; "P05"; "P06"; "P07"; "P08"; "P09";
      "P10"; "P11"; "P12"; "P13"; "P14"; "P15"; "P16"; "P17"; "P18" ].

Definition tied_catalog : DataFrame :=
  mkFrame (seq 0 18)
    [ ("Product Name", ObjSeries product_names);
      ("Price (USD)", IntSeries (repeat 10%Z 18)) ].

(** Four scored records, the first two with the same score. *)
Definition tied_four : DataFrame :=
  mkFrame [0; 1; 2; 3]
    [ ("Product Name", ObjSeries [OStr "a"; OStr "b"; OStr "c"; OStr "d"]);
      ("score", FloatSeries [0; 0; 1; 2]%float) ].

(** Two scored records with the same score. *)
Definition tied_pair : DataFrame :=
  mkFrame [0; 1]
    [ ("Product Name", ObjSeries [OStr "Product A"; OStr "Product B"]);
      ("score", FloatSeries [1; 1]%float) ].

End Examples.

(* ================================================================== *)
(** ** Callers: the settings loader, the data processor and the ETL flow *)

Module Callers.

(** What the settings loader finds at [WEIGHTS_FILE_PATH]: no file, a file
    that is no YAML, or a file that parses to a mapping. *)
Inductive WeightsFile : Type :=
| WeightsMissing
| WeightsMalformed
| WeightsParsed (w : WeightsConfig).

(** [Settings.WEIGHTS] of [config/settings.py]. *)
Definition load_weights (f : WeightsFile) : WeightsConfig :=
  match f with
  | WeightsParsed w => w
  | WeightsMissing | WeightsMalformed =>
      {| cfg_scoring_weights := Some [];
         cfg_brand_tier_weights := Some [];
         cfg_filters :=
           Some {| min_stock := None; max_inventory_days := None |};
         cfg_top_n_products := Some 10%Z |}
  end.

(** What [RAW_DATA_PATH] holds: no file, a file [read_csv] fails on, or a
    file it reads as a table. *)
Inductive RawFile : Type :=
| NoFile
| Unreadable
| Csv (df : DataFrame).

(** What [PROCESSED_DATA_PATH] holds: no file, the table last written to it,
    or what a write that broke off left there. *)
Inductive ProcessedFile : Type :=
| Absent
| Holds (df : DataFrame)
| Damaged.

(** How the next write to the processed path ends: [mkdir] and [to_csv] go
    through; one of them fails before the file is opened, which leaves the
    path as it was; or [to_csv] fails once the file is open. *)
Inductive WriteOutcome : Type :=
| WriteOk
| FailsBeforeOpen
| FailsAfterOpen.

(** The two data files and the fate of a write. *)
Record Disk : Type := {
  raw_file : RawFile;
  processed_file : ProcessedFile;
  next_write : WriteOutcome
}.

Section DataProcessor.

Context {backend : Pandas}.

(** [settings.WEIGHTS]. *)
Variable weights : WeightsConfig.

(** [DataProcessor.load_data] on the default path; [None] is the
    [FileNotFoundError] it raises, a failing [read_csv] is caught and gives
    [pd.DataFrame()]. *)
Definition load_data (disk : Disk) : option DataFrame :=
  match raw_file disk with
  | NoFile => None
  | Unreadable => Some (mkFrame [] [])
  | Csv df => Some df
  end.

(** [DataProcessor.process_and_score_data]. *)
Definition process_and_score_data (df : DataFrame) (top_n : option Z)
  : option DataFrame :=
  let effective_top_n :=
    from_option (from_option 10%Z (cfg_top_n_products weights)) top_n in
  process (init weights) df (Some effective_top_n).

(** [DataProcessor.save_processed_data]: a failing write is caught and
    logged, whatever it has done to the file by then. *)
Definition save_processed_data (disk : Disk) (df : DataFrame) : Disk :=
  match next_write disk with
  | WriteOk =>
      {| raw_file := raw_file disk; processed_file := Holds df;
         next_write := next_write disk |}
  | FailsBeforeOpen => disk
  | FailsAfterOpen =>
      {| raw_file := raw_file disk; processed_file := Damaged;
         next_write := next_write disk |}
  end.

(** [DataProcessor.run_full_pipeline]: the table returned and the disk
    left. *)
Definition run_full_pipeline (disk : Disk) (top_n : option Z)
  : option (DataFrame * Disk) :=
  match load_data disk with
  | None => None
  | Some raw_df =>
      if empty raw_df then Some (mkFrame [] [], disk)
      else
        match process_and_score_data raw_df top_n with
        | None => None
        | Some processed_df =>
            if negb (empty processed_df) then
              Some (processed_df, save_processed_data disk processed_df)
            else Some (processed_df, disk)
        end
  end.

(** The three tasks of [pipelines/ranking_pipeline.py], each run as the body
    of its function. *)
Definition load_raw_data_task (disk : Disk) : option DataFrame :=
  load_data disk.

Definition process_and_score_data_task (df : DataFrame) (top_n : option Z)
  : option DataFrame :=
  if empty df then Some (mkFrame [] [])
  else
    let effective_top_n :=
      from_option (from_option 10%Z (cfg_top_n_products weights)) top_n in
    process_and_score_data df (Some effective_top_n).

Definition save_ranked_data_task (disk : Disk) (df : DataFrame) : Disk :=
  if empty df then disk else save_processed_data disk df.

(** [product_ranking_etl_flow]: the disk it leaves; [None] is an exception
    leaving the flow. *)
Definition product_ranking_etl_flow (disk : Disk) : option Disk :=
  match load_raw_data_task disk with
  | None => None
  | Some raw_data_df =>
      if negb (empty raw_data_df) then
        match process_and_score_data_task raw_data_df None with
        | None => None
        | Some ranked_products_df =>
            if negb (empty ranked_products_df) then
              Some (save_ranked_data_task disk ranked_products_df)
            else Some disk
        end
      else Some disk
  end.

End DataProcessor.

End Callers.

(* ================================================================== *)
(** ** Readings used by the further properties *)

Section MoreReadings.

Context {backend : Pandas}.
Variable self : ProductScorer.

(** The internal column [preprocess_data] makes of the raw column [csv_col]:
    the coerced column ([int64] kept, text parsed, missing numbers zero) or
    the column itself when the raw column is there, a column of zeros or of
    [None] when it is not. *)
Definition canonical_column (df : DataFrame) (csv_col internal_col : string)
  : Series :=
  match get_col csv_col df with
  | Some s =>
      if mem internal_col numeric_internal_cols then numeric_robust s 0
      else s
  | None =>
      if mem internal_col numeric_internal_cols then
        IntSeries (repeat 0%Z (nrows df))
      else ObjSeries (repeat ONull (nrows df))
  end.

(** The names [preprocess_data] writes that are no raw names. *)
Definition derived_internal_cols : list string :=
  numeric_internal_cols ++ ["brand_tier"].

(** The weight of one brand-tier cell: the mapped weight when the tier is a
    key of the mapping and the weight is a number, 0 otherwise. *)
Definition tier_weight (o : obj) : float :=
  match o with
  | OStr t =>
      match assoc t (brand_tier_map self) with
      | Some w => if is_nan w then 0%float else w
      | None => 0%float
      end
  | ONull => 0%float
  end.

(** The score [process] gives the record at position [p] of the normalised
    table. *)
Definition record_score (normed : DataFrame) (p : nat) : float :=
  fillna 0 (weighted_sum self normed p).

(** The positions, in the filtered table, of the records [process] returns,
    in rank order. *)
Definition ranked_positions (normed : DataFrame) (top_n : Z) : list nat :=
  firstn (head_count top_n (nrows normed))
         (argsort_desc (map (record_score normed) (seq 0 (nrows normed)))).

End MoreReadings.

(* ================================================================== *)
(** ** Columns of a table *)

Create HintDb frame.

Lemma lookup_upsert_eq name s cols : lookup name (upsert name s cols) = Some s.
Proof.
  induction cols as [|[c x] rest IH]; simpl.
  - now rewrite String.eqb_refl.
  - destruct (String.eqb c name) eqn:E; simpl; now rewrite E.
Qed.

Lemma lookup_upsert_neq name g s cols :
  String.eqb name g = false -> lookup g (upsert name s cols) = lookup g cols.
Proof.
  intros Hng. induction cols as [|[c x] rest IH]; simpl.
  - now rewrite Hng.
  - destruct (String.eqb c name) eqn:E; simpl.
    + apply String.eqb_eq in E. subst c. now rewrite Hng.
    + now rewrite IH.
Qed.

Lemma upsert_upsert name s s' cols :
  upsert name s (upsert name s' cols) = upsert name s cols.
Proof.
  induction cols as [|[c x] rest IH]; simpl.
  - now rewrite String.eqb_refl.
  - destruct (String.eqb c name) eqn:E; simpl; rewrite E; congruence.
Qed.

Lemma names_upsert name s cols :
  map fst (upsert name s cols) =
  match lookup name cols with
  | Some _ => map fst cols
  | None => map fst cols ++ [name]
  end.
Proof.
  induction cols as [|[c x] rest IH]; simpl; auto.
  destruct (String.eqb c name) eqn:E; simpl; auto.
  rewrite IH. now destruct (lookup name rest).
Qed.

Lemma get_set_eq name s df : get_col name (set_col name s df) = Some s.
Proof. apply lookup_upsert_eq. Qed.

Lemma get_set_neq name g s df :
  String.eqb name g = false -> get_col g (set_col name s df) = get_col g df.
Proof. apply lookup_upsert_neq. Qed.

Lemma set_set name s s' df :
  set_col name s (set_col name s' df) = set_col name s df.
Proof. unfold set_col; simpl. now rewrite upsert_upsert. Qed.

Lemma nrows_set_col name s df : nrows (set_col name s df) = nrows df.
Proof. reflexivity. Qed.

Lemma to_numeric_robust_length {backend : Pandas} s d :
  length (to_numeric_robust s d) = series_len s.
Proof. destruct s; simpl; apply length_map. Qed.

Lemma to_numeric_robust_not_nan {backend : Pandas} s d :
  is_nan d = false ->
  Forall (fun x => is_nan x = false) (to_numeric_robust s d).
Proof.
  intros Hd. destruct s; simpl; apply Forall_forall; intros x Hx;
    apply in_map_iff in Hx as [y [<- _]]; now apply fillna_not_nan.
Qed.

Lemma map_fillna_id d l :
  Forall (fun x => is_nan x = false) l -> map (fillna d) l = l.
Proof.
  induction 1 as [|x l Hx _ IH]; simpl; auto.
  now rewrite IH, fillna_id.
Qed.

Section Coercion.

Context {backend : Pandas}.

Lemma all_integers_length l zs :
  all_integers l = Some zs -> length zs = length l.
Proof.
  revert zs. induction l as [|o l IH]; simpl; intros zs.
  - now intros [= <-].
  - destruct (obj_to_integer o); [|discriminate].
    destruct (all_integers l) as [zs'|]; [|discriminate].
    intros [= <-]. simpl. now rewrite (IH zs').
Qed.

Lemma all_integers_values l zs d :
  all_integers l = Some zs ->
  map (fun o => fillna d (obj_to_numeric o)) l = map of_Z zs.
Proof.
  revert zs. induction l as [|o l IH]; simpl; intros zs.
  - now intros [= <-].
  - destruct (obj_to_integer o) as [z|] eqn:Eo; [|discriminate].
    destruct (all_integers l) as [zs'|]; [|discriminate].
    intros [= <-]. simpl. rewrite (IH zs') by reflexivity. f_equal.
    destruct o as [t|]; [|discriminate]. simpl in *.
    rewrite (to_integer_numeric _ _ Eo). apply fillna_of_Z.
Qed.

Lemma numeric_robust_len s d : series_len (numeric_robust s d) = series_len s.
Proof.
  destruct s as [l|l|l]; simpl; [apply length_map | reflexivity |].
  destruct (all_integers l) as [zs|] eqn:E; simpl;
    [now apply all_integers_length | apply length_map].
Qed.

(** The column [_to_numeric_robust] returns holds the values
    [to_numeric_robust] reads. *)
Lemma values_numeric_robust s d :
  values (numeric_robust s d) = to_numeric_robust s d.
Proof.
  destruct s as [l|l|l]; simpl; [reflexivity | |].
  - apply map_ext. intros z. symmetry. apply fillna_of_Z.
  - destruct (all_integers l) as [zs|] eqn:E; simpl; [|reflexivity].
    symmetry. now apply all_integers_values.
Qed.

Lemma to_numeric_robust_values s d :
  (forall l, s <> ObjSeries l) ->
  Forall (fun x => is_nan x = false) (values s) ->
  to_numeric_robust s d = values s.
Proof.
  intros Hs Hn. destruct s as [l|l|l]; simpl in *.
  - clear Hs. induction Hn as [|x l Hx _ IH]; simpl; auto.
    now rewrite IH, fillna_id.
  - apply map_ext. intros z. apply fillna_of_Z.
  - now destruct (Hs l).
Qed.

Lemma numeric_robust_numeric s d l : numeric_robust s d <> ObjSeries l.
Proof.
  destruct s as [l'|l'|l']; simpl; try discriminate.
  destruct (all_integers l'); discriminate.
Qed.

(** Reading a coerced column again, under any default, reads the same. *)
Lemma to_numeric_robust_again s d d' :
  is_nan d = false ->
  to_numeric_robust (numeric_robust s d) d' = to_numeric_robust s d.
Proof.
  intros Hd. rewrite <- (values_numeric_robust s d).
  apply to_numeric_robust_values.
  - intros l. apply numeric_robust_numeric.
  - rewrite values_numeric_robust. now apply to_numeric_robust_not_nan.
Qed.

Lemma numeric_robust_again s d d' :
  is_nan d = false ->
  numeric_robust (numeric_robust s d) d' = numeric_robust s d.
Proof.
  intros Hd. destruct s as [l|l|l]; simpl; [|reflexivity|].
  - f_equal. apply map_fillna_id.
    exact (to_numeric_robust_not_nan (FloatSeries l) d Hd).
  - destruct (all_integers l) as [zs|]; simpl; [reflexivity|].
    f_equal. apply map_fillna_id.
    exact (to_numeric_robust_not_nan (ObjSeries l) d Hd).
Qed.

Lemma get_robust_numeric name df l : get_robust name df <> ObjSeries l.
Proof.
  unfold get_robust. destruct (get_col name df);
    [apply numeric_robust_numeric | discriminate].
Qed.

End Coercion.

Lemma values_len s :
  (forall l, s <> ObjSeries l) -> length (values s) = series_len s.
Proof.
  intros H. destruct s as [l|l|l]; simpl;
    [reflexivity | apply length_map | now destruct (H l)].
Qed.

Lemma align_floats_length n l : length (align_floats n l) = n.
Proof.
  unfold align_floats. rewrite length_app, length_firstn, repeat_length. lia.
Qed.

Lemma align_floats_id n l : length l = n -> align_floats n l = l.
Proof.
  intros <-. unfold align_floats.
  rewrite firstn_all, Nat.sub_diag. apply app_nil_r.
Qed.

Lemma align_floats_nil n : align_floats n [] = repeat nan n.
Proof. unfold align_floats. rewrite firstn_nil. simpl. now rewrite Nat.sub_0_r. Qed.

Lemma align_id n s : series_len s = n -> align n s = s.
Proof.
  intros <-. destruct s as [l|l|l]; simpl.
  - now rewrite align_floats_id.
  - now rewrite Nat.leb_refl, firstn_all.
  - now rewrite firstn_all, Nat.sub_diag, app_nil_r.
Qed.

Lemma align_len n s : series_len (align n s) = n.
Proof.
  destruct s as [l|l|l]; unfold align.
  - apply align_floats_length.
  - destruct (n <=? length l)%nat eqn:E; simpl.
    + apply Nat.leb_le in E. rewrite length_firstn. lia.
    + apply align_floats_length.
  - simpl. rewrite length_app, length_firstn, repeat_length. lia.
Qed.

Lemma align_numeric n s :
  (forall l, s <> ObjSeries l) -> forall l, align n s <> ObjSeries l.
Proof.
  intros H l. destruct s as [l'|l'|l']; unfold align.
  - discriminate.
  - destruct (n <=? length l')%nat; discriminate.
  - now destruct (H l').
Qed.

Lemma profit_margins_len p c n :
  (forall l, p <> ObjSeries l) -> (forall l, c <> ObjSeries l) ->
  series_len p = n -> series_len c = n ->
  length (profit_margins p c) = n.
Proof.
  intros Hp Hc Lp Lc. unfold profit_margins.
  destruct p as [ps|ps|ps], c as [cs|cs|cs]; simpl in *;
    try (now destruct (Hp ps)); try (now destruct (Hc cs));
    rewrite length_map, length_combine, ?length_map, Lp, Lc;
    apply Nat.min_id.
Qed.

Lemma aligned_spec df :
  aligned df = true <->
  Forall (fun c => series_len (snd c) = nrows df) (columns df).
Proof.
  unfold aligned. rewrite forallb_forall, Forall_forall.
  split; intros H c Hc; specialize (H c Hc); now apply Nat.eqb_eq.
Qed.

Lemma Forall_lookup (P : Series -> Prop) name s cols :
  Forall (fun c => P (snd c)) cols -> lookup name cols = Some s -> P s.
Proof.
  induction 1 as [|[c x] rest Hc _ IH]; simpl; [discriminate|].
  destruct (String.eqb c name); [|exact IH].
  intros [= <-]. exact Hc.
Qed.

Lemma Forall_upsert (P : Series -> Prop) name s cols :
  Forall (fun c => P (snd c)) cols -> P s ->
  Forall (fun c => P (snd c)) (upsert name s cols).
Proof.
  intros H Hs. induction H as [|[c x] rest Hc Hrest IH]; simpl.
  - now repeat constructor.
  - destruct (String.eqb c name); constructor; auto.
Qed.

Lemma aligned_get df name s :
  aligned df = true -> get_col name df = Some s -> series_len s = nrows df.
Proof.
  rewrite aligned_spec. intros H.
  apply (Forall_lookup (fun s => series_len s = nrows df) name s _ H).
Qed.

Lemma aligned_set_col df name s :
  aligned df = true -> series_len s = nrows df ->
  aligned (set_col name s df) = true.
Proof.
  rewrite !aligned_spec. intros H Hs.
  apply (Forall_upsert (fun s => series_len s = nrows df) name s _ H Hs).
Qed.

Lemma aligned_map_columns (f : Series -> Series) idx idx' cols :
  (forall s, series_len s = length idx -> series_len (f s) = length idx') ->
  aligned (mkFrame idx cols) = true ->
  aligned (mkFrame idx' (map_columns f cols)) = true.
Proof.
  intros Hf. rewrite !aligned_spec. unfold nrows; simpl.
  intros H. induction H as [|c rest Hc _ IH]; simpl; constructor; auto.
  simpl. now apply Hf.
Qed.

#[export] Hint Resolve aligned_set_col : frame.

(* ================================================================== *)
(** ** Boolean selection *)

Arguments mask_filter {A} m l : simpl never.

Lemma mask_filter_nil_l {A} (l : list A) : mask_filter [] l = [].
Proof. reflexivity. Qed.

Lemma mask_filter_nil_r {A} m : mask_filter m ([] : list A) = [].
Proof. unfold mask_filter. now destruct m. Qed.

Lemma mask_filter_cons {A} b m (x : A) l :
  mask_filter (b :: m) (x :: l) =
  if b then x :: mask_filter m l else mask_filter m l.
Proof. unfold mask_filter; simpl. now destruct b. Qed.

Lemma mask_filter_map {A B} (g : A -> B) m l :
  mask_filter m (map g l) = map g (mask_filter m l).
Proof.
  revert l. induction m as [|b m IH]; intros [|x l]; simpl;
    rewrite ?mask_filter_nil_l, ?mask_filter_nil_r; auto.
  rewrite !mask_filter_cons, IH. now destruct b.
Qed.

Lemma mask_filter_length {A B} m (l : list A) (l' : list B) :
  length l = length l' ->
  length (mask_filter m l) = length (mask_filter m l').
Proof.
  revert l l'. induction m as [|b m IH]; intros [|x l] [|y l'] H;
    try discriminate; rewrite ?mask_filter_nil_l, ?mask_filter_nil_r; auto.
  rewrite !mask_filter_cons. injection H as H.
  destruct b; simpl; auto.
Qed.

Lemma mask_filter_combine {A B} m (l : list A) (l' : list B) :
  mask_filter m (combine l l') = combine (mask_filter m l) (mask_filter m l').
Proof.
  revert l l'. induction m as [|b m IH]; intros [|x l] [|y l']; simpl;
    rewrite ?mask_filter_nil_l, ?mask_filter_nil_r, ?combine_nil; auto.
  rewrite !mask_filter_cons, IH. now destruct b.
Qed.

Lemma mask_filter_in {A} m (l : list A) x :
  In x (mask_filter m l) -> In x l.
Proof.
  revert l. induction m as [|b m IH]; intros [|y l];
    rewrite ?mask_filter_nil_l, ?mask_filter_nil_r; simpl; try tauto.
  rewrite mask_filter_cons. destruct b; simpl; intuition.
Qed.

(** Selection by a test on a companion column. *)
Lemma in_mask_filter_test {A B} (f : A -> bool) (vs : list A) (l : list B) x :
  In x (mask_filter (map f vs) l) <->
  exists v, In (v, x) (combine vs l) /\ f v = true.
Proof.
  revert l. induction vs as [|v vs IH]; intros [|y l]; simpl;
    rewrite ?mask_filter_nil_l, ?mask_filter_nil_r; simpl.
  1-3: split; [tauto | intros [? [[] _]]].
  rewrite mask_filter_cons. destruct (f v) eqn:E; simpl; rewrite IH.
  - split.
    + intros [<- | [w [Hin Hw]]]; eauto.
    + intros [w [[[= <- <-] | Hin] Hw]]; eauto.
  - split.
    + intros [w [Hin Hw]]; eauto.
    + intros [w [[[= <- <-] | Hin] Hw]]; [congruence | eauto].
Qed.

Lemma mask_filter_sorted m (l : list nat) :
  StronglySorted lt l -> StronglySorted lt (mask_filter m l).
Proof.
  revert m. induction l as [|x l IH]; intros m H;
    rewrite ?mask_filter_nil_r; [constructor|].
  destruct m as [|b m]; [constructor|].
  rewrite mask_filter_cons. apply StronglySorted_inv in H as [H1 H2].
  destruct b; auto. constructor; auto.
  apply Forall_forall. intros y Hy. apply mask_filter_in in Hy.
  now apply (proj1 (Forall_forall _ _) H2).
Qed.

(** Selection is a [take] at the selected positions. *)
Lemma mask_filter_take {A} (d : A) m l a :
  mask_filter m l =
  map (fun k => nth (k - a) l d) (mask_filter m (seq a (length l))).
Proof.
  revert l a. induction m as [|b m IH]; intros [|x l] a; simpl;
    rewrite ?mask_filter_nil_l, ?mask_filter_nil_r; auto.
  rewrite !mask_filter_cons, (IH l (S a)).
  assert (E : map (fun k => nth (k - S a) l d) (mask_filter m (seq (S a) (length l)))
            = map (fun k => nth (k - a) (x :: l) d) (mask_filter m (seq (S a) (length l)))).
  { apply map_ext_in. intros k Hk. apply mask_filter_in, in_seq in Hk.
    replace (k - a) with (S (k - S a)) by lia. reflexivity. }
  rewrite E. destruct b; simpl; auto. now rewrite Nat.sub_diag.
Qed.



(* ================================================================== *)
(** ** Rows under [take], selection and [head] *)

Lemma map_nth_seq {A B} (f : A -> B) (d : A) (l : list A) :
  map (fun j => f (nth j l d)) (seq 0 (length l)) = map f l.
Proof.
  induction l as [|x l IH]; simpl; auto.
  f_equal. rewrite <- seq_shift, map_map. exact IH.
Qed.

Lemma take_series_len idx s : series_len (take_series idx s) = length idx.
Proof. destruct s; simpl; apply length_map. Qed.

Lemma cell_at_take idx s j :
  j < length idx -> nth j idx 0 < series_len s ->
  cell_at (take_series idx s) j = cell_at s (nth j idx 0).
Proof.
  intros Hj Hk.
  destruct s as [l|l|l]; simpl in *;
    rewrite nth_error_map, (nth_error_nth' idx 0 Hj); simpl.
  - now rewrite (nth_error_nth' l nan Hk).
  - now rewrite (nth_error_nth' l 0%Z Hk).
  - now rewrite (nth_error_nth' l ONull Hk).
Qed.

Lemma rows_take_rows idx df :
  aligned df = true -> Forall (fun p => p < nrows df) idx ->
  rows (take_rows idx df) = map (row_at df) idx.
Proof.
  intros Hal Hidx. unfold rows.
  replace (nrows (take_rows idx df)) with (length idx)
    by (unfold nrows, take_rows; simpl; now rewrite length_map).
  rewrite <- (map_nth_seq (row_at df) 0 idx).
  apply map_ext_in. intros j Hj. apply in_seq in Hj.
  unfold row_at, take_rows, map_columns; simpl. rewrite map_map.
  apply map_ext_in. intros c Hc; simpl. f_equal.
  apply cell_at_take; [lia|].
  apply aligned_spec in Hal.
  rewrite (proj1 (Forall_forall _ _) Hal c Hc).
  apply (proj1 (Forall_forall _ _) Hidx). apply nth_In. lia.
Qed.

Lemma filter_take_series m idx s :
  filter_series m (take_series idx s) = take_series (mask_filter m idx) s.
Proof. destruct s; simpl; now rewrite mask_filter_map. Qed.

Lemma map_columns_map_columns f g cols :
  map_columns f (map_columns g cols) = map_columns (fun s => f (g s)) cols.
Proof. unfold map_columns. rewrite map_map. reflexivity. Qed.

Lemma map_columns_ext f g cols :
  (forall c, In c cols -> f (snd c) = g (snd c)) ->
  map_columns f cols = map_columns g cols.
Proof.
  intros H. unfold map_columns. apply map_ext_in. intros c Hc.
  now rewrite (H c Hc).
Qed.

Lemma filter_rows_take_rows m idx df :
  filter_rows m (take_rows idx df) = take_rows (mask_filter m idx) df.
Proof.
  unfold filter_rows, take_rows; simpl.
  rewrite mask_filter_map, map_columns_map_columns. f_equal.
  apply map_columns_ext. intros c _. apply filter_take_series.
Qed.

Lemma take_series_all s : take_series (seq 0 (series_len s)) s = s.
Proof.
  destruct s as [l|l|l]; simpl; f_equal;
    rewrite (map_nth_seq (fun x => x)); apply map_id.
Qed.

Lemma range_index_spec df :
  range_index df = true <-> index df = seq 0 (nrows df).
Proof.
  unfold range_index.
  destruct (list_eq_dec Nat.eq_dec (index df) (seq 0 (nrows df)));
    split; congruence.
Qed.

Lemma wf_frame_spec df :
  wf_frame df = true <-> aligned df = true /\ range_index df = true.
Proof. unfold wf_frame. apply andb_true_iff. Qed.

Lemma take_rows_all df :
  wf_frame df = true -> take_rows (index df) df = df.
Proof.
  intros [Hal Hri]%wf_frame_spec. apply range_index_spec in Hri.
  apply aligned_spec in Hal.
  destruct df as [idx cols]; unfold take_rows, nrows in *; simpl in *.
  assert (E : exists n, idx = seq 0 n) by eauto.
  destruct E as [n ->]. clear Hri. rewrite length_seq in Hal. f_equal.
  - transitivity (map (fun x => x) (seq 0 n)); [|apply map_id].
    apply map_ext_in. intros i Hi. apply seq_nth. now apply in_seq in Hi.
  - unfold map_columns.
    transitivity (map (fun x => x) cols); [|apply map_id].
    apply map_ext_in. intros [c s] Hc; simpl.
    f_equal. rewrite <- (proj1 (Forall_forall _ _) Hal _ Hc). simpl.
    apply take_series_all.
Qed.

Lemma index_take_rows idx df :
  range_index df = true -> Forall (fun p => p < nrows df) idx ->
  index (take_rows idx df) = idx.
Proof.
  intros Hri%range_index_spec Hidx. unfold take_rows; simpl. rewrite Hri.
  transitivity (map (fun x => x) idx); [|apply map_id].
  apply map_ext_in. intros i Hi.
  apply seq_nth. apply (proj1 (Forall_forall _ _) Hidx _ Hi).
Qed.

Lemma aligned_take_rows idx df : aligned (take_rows idx df) = true.
Proof.
  apply aligned_spec. unfold take_rows, nrows; simpl.
  apply Forall_forall. intros c Hc. apply in_map_iff in Hc as [c' [<- _]].
  simpl. now rewrite take_series_len, length_map.
Qed.

Lemma lookup_map_columns f name cols :
  lookup name (map_columns f cols) = option_map f (lookup name cols).
Proof.
  induction cols as [|[c x] rest IH]; simpl; auto.
  destruct (String.eqb c name); simpl; auto.
Qed.

Lemma names_map_columns f cols : map fst (map_columns f cols) = map fst cols.
Proof. unfold map_columns. rewrite map_map. reflexivity. Qed.


Lemma filter_series_len m s (idx : list nat) :
  series_len s = length idx ->
  series_len (filter_series m s) = length (mask_filter m idx).
Proof. destruct s; simpl; apply mask_filter_length. Qed.

Lemma aligned_filter_rows m df :
  aligned df = true -> aligned (filter_rows m df) = true.
Proof.
  destruct df as [idx cols]. unfold filter_rows; simpl.
  apply aligned_map_columns. intros s. apply filter_series_len.
Qed.

Lemma head_series_len k s : series_len (head_series k s) = Nat.min k (series_len s).
Proof. destruct s; simpl; apply length_firstn. Qed.

Lemma nrows_head n df : nrows (head n df) = head_count n (nrows df).
Proof.
  unfold head, nrows; simpl. rewrite length_firstn.
  unfold head_count. destruct (0 <=? n)%Z; lia.
Qed.

Lemma aligned_head n df : aligned df = true -> aligned (head n df) = true.
Proof.
  destruct df as [idx cols]. unfold head; simpl.
  apply aligned_map_columns. intros s Hs.
  rewrite head_series_len, length_firstn, Hs. reflexivity.
Qed.

Lemma aligned_reset_index df : aligned df = true -> aligned (reset_index df) = true.
Proof.
  rewrite !aligned_spec. unfold reset_index, nrows; simpl.
  now rewrite length_seq.
Qed.

Lemma rows_reset_index df : rows (reset_index df) = rows df.
Proof.
  unfold rows, reset_index, nrows; simpl. now rewrite length_seq.
Qed.

#[export] Hint Resolve aligned_take_rows aligned_filter_rows aligned_head
  aligned_reset_index : frame.

(* ================================================================== *)
(** ** The filter stage *)

Lemma seq_strongly_sorted a n : StronglySorted lt (seq a n).
Proof.
  revert a. induction n as [|n IH]; intros a; simpl; constructor; auto.
  apply Forall_forall. intros x Hx. apply in_seq in Hx. lia.
Qed.

Lemma seq_bounded n : Forall (fun p => p < n) (seq 0 n).
Proof. apply Forall_forall. intros x Hx. apply in_seq in Hx. lia. Qed.

Lemma mask_filter_forall {A} (P : A -> Prop) m l :
  Forall P l -> Forall P (mask_filter m l).
Proof.
  rewrite !Forall_forall. intros H x Hx. apply H.
  now apply mask_filter_in in Hx.
Qed.

Lemma selection_refl df : wf_frame df = true -> selection_of df df.
Proof.
  intros Hwf. split; [now rewrite take_rows_all|].
  apply wf_frame_spec in Hwf as [_ Hri]. apply range_index_spec in Hri.
  rewrite Hri. split; [apply seq_strongly_sorted | apply seq_bounded].
Qed.

Lemma selection_filter_rows df0 d m :
  selection_of df0 d -> selection_of df0 (filter_rows m d).
Proof.
  intros [Heq [Hs Hb]]. split; [|split].
  - transitivity (filter_rows m (take_rows (index d) df0)).
    + now rewrite <- Heq.
    + apply filter_rows_take_rows.
  - simpl. now apply mask_filter_sorted.
  - simpl. now apply mask_filter_forall.
Qed.


Section FilterStage.

Context {backend : Pandas}.
Variable self : ProductScorer.

Lemma filter_stage_selection df :
  wf_frame df = true -> selection_of df (filter_stage self df).
Proof.
  intros Hwf. pose proof (selection_refl df Hwf) as H0. unfold filter_stage.
  set (d1 := match min_stock (filters self), get_col "units_in_stock" df with
             | Some ms, Some s =>
                 filter_rows (map (fun u => (ms <=? u)%float)
                                  (to_numeric_robust s 0)) df
             | _, _ => df
             end).
  assert (H1 : selection_of df d1).
  { unfold d1. destruct (min_stock (filters self)); auto.
    destruct (get_col "units_in_stock" df); auto.
    now apply selection_filter_rows. }
  destruct (max_inventory_days (filters self)); auto.
  destruct (get_col "days_of_inventory" d1); auto.
  now apply selection_filter_rows.
Qed.

Lemma filter_stage_aligned df :
  aligned df = true -> aligned (filter_stage self df) = true.
Proof.
  intros Hal. unfold filter_stage.
  set (d1 := match min_stock (filters self), get_col "units_in_stock" df with
             | Some ms, Some s =>
                 filter_rows (map (fun u => (ms <=? u)%float)
                                  (to_numeric_robust s 0)) df
             | _, _ => df
             end).
  assert (H1 : aligned d1 = true).
  { unfold d1. destruct (min_stock (filters self)); auto.
    destruct (get_col "units_in_stock" df); auto with frame. }
  destruct (max_inventory_days (filters self)); auto.
  destruct (get_col "days_of_inventory" d1); auto with frame.
Qed.



End FilterStage.

(** The table [apply_filters] returns: as many rows as labels survive, the
    columns of the input, a dense index. *)
Lemma apply_filters_frame {backend : Pandas} (self : ProductScorer)
      (df : DataFrame) :
  wf_frame df = true ->
  Forall (fun p => p < nrows df) (index (filter_stage self df)) /\
  nrows (apply_filters self df) = length (index (filter_stage self df)) /\
  column_names (apply_filters self df) = column_names df /\
  wf_frame (apply_filters self df) = true.
Proof.
  intros Hwf.
  destruct (filter_stage_selection self df Hwf) as [Heq [_ Hb]].
  pose proof Hwf as [Hal _]%wf_frame_spec.
  assert (Hn : nrows (apply_filters self df)
               = length (index (filter_stage self df))).
  { unfold apply_filters, reset_index, nrows; simpl. now rewrite length_seq. }
  split; [exact Hb|]. split; [exact Hn|]. split.
  - unfold apply_filters, column_names, reset_index; simpl.
    rewrite Heq. unfold take_rows; simpl. apply names_map_columns.
  - apply wf_frame_spec. split.
    + apply aligned_reset_index. now apply filter_stage_aligned.
    + apply range_index_spec. unfold apply_filters, reset_index, nrows; simpl.
      now rewrite length_seq.
Qed.

(** C8: filtering is monotonic and value-preserving.  For a table as it is
    loaded, the rows that [apply_filters] returns are rows of the input,
    named by their input labels [kept]: the labels rise strictly (the
    relative order is kept, no row appears twice), each one is a row of the
    input, and every surviving row carries exactly the named cells the input
    row has; no column is added or dropped, and the output is renumbered
    densely. *)
Theorem apply_filters_monotonic {backend : Pandas} (self : ProductScorer)
        (df : DataFrame) :
  wf_frame df = true ->
  let kept := index (filter_stage self df) in
  StronglySorted lt kept /\
  Forall (fun p => p < nrows df) kept /\
  nrows (apply_filters self df) = length kept /\
  rows (apply_filters self df) = map (row_at df) kept /\
  column_names (apply_filters self df) = column_names df /\
  wf_frame (apply_filters self df) = true.
Proof.
  intros Hwf kept.
  destruct (filter_stage_selection self df Hwf) as [Heq [Hs Hb]].
  destruct (apply_filters_frame self df Hwf) as [_ [Hn [Hnames Hwf']]].
  pose proof Hwf as [Hal _]%wf_frame_spec.
  fold kept in Heq, Hs, Hb, Hn.
  split; [exact Hs|]. split; [exact Hb|]. split; [exact Hn|].
  split; [|split; assumption].
  unfold apply_filters. rewrite rows_reset_index, Heq.
  now apply rows_take_rows.
Qed.

Lemma apply_filters_monotonic_witness :
  let kept := index (filter_stage (backend := Backends.stable)
                       Examples.sample_scorer Examples.canonical_data) in
  StronglySorted lt kept /\
  Forall (fun p => p < nrows Examples.canonical_data) kept /\
  nrows (apply_filters (backend := Backends.stable)
           Examples.sample_scorer Examples.canonical_data) = length kept /\
  rows (apply_filters (backend := Backends.stable)
          Examples.sample_scorer Examples.canonical_data)
  = map (row_at Examples.canonical_data) kept /\
  column_names (apply_filters (backend := Backends.stable)
                  Examples.sample_scorer Examples.canonical_data)
  = column_names Examples.canonical_data /\
  wf_frame (apply_filters (backend := Backends.stable)
              Examples.sample_scorer Examples.canonical_data) = true.
Proof.
  exact (apply_filters_monotonic (backend := Backends.stable)
           Examples.sample_scorer Examples.canonical_data eq_refl).
Defined.



(* ================================================================== *)
(** ** Schema normalisation and feature derivation *)

Section Stages.

Context {backend : Pandas}.
Variable self : ProductScorer.

Lemma preprocess_step_cases df c i :
  aligned df = true ->
  preprocess_step df (c, i) = df \/
  exists s, series_len s = nrows df /\ preprocess_step df (c, i) = set_col i s df.
Proof.
  intros Hal. unfold preprocess_step.
  destruct (get_col c df) as [s|] eqn:E.
  - destruct (mem i numeric_internal_cols).
    + right. eexists. split; [|reflexivity].
      rewrite numeric_robust_len. eapply aligned_get; eauto.
    + destruct (negb (String.eqb i c)); [|now left].
      right. exists s. split; [eapply aligned_get; eauto | reflexivity].
  - right. destruct (mem i numeric_internal_cols); eexists;
      (split; [|reflexivity]); simpl; apply repeat_length.
Qed.

Lemma preprocess_step_index df item :
  index (preprocess_step df item) = index df.
Proof.
  destruct item as [c i]. unfold preprocess_step.
  destruct (get_col c df); repeat (match goal with
    | |- context [if ?b then _ else _] => destruct b end); reflexivity.
Qed.

Lemma preprocess_step_aligned df item :
  aligned df = true -> aligned (preprocess_step df item) = true.
Proof.
  intros Hal. destruct item as [c i].
  destruct (preprocess_step_cases df c i Hal) as [-> | [s [Hs ->]]];
    auto with frame.
Qed.

Lemma preprocess_step_other df c i g :
  String.eqb i g = false ->
  get_col g (preprocess_step df (c, i)) = get_col g df.
Proof.
  intros Hg. unfold preprocess_step.
  destruct (get_col c df); repeat (match goal with
    | |- context [if ?b then _ else _] => destruct b end);
    try reflexivity; now apply get_set_neq.
Qed.

Lemma get_set_some name g s df :
  get_col g df <> None -> get_col g (set_col name s df) <> None.
Proof.
  intros H. destruct (String.eqb name g) eqn:E.
  - apply String.eqb_eq in E. subst. now rewrite get_set_eq.
  - now rewrite get_set_neq.
Qed.

Lemma preprocess_step_keeps df item g :
  get_col g df <> None -> get_col g (preprocess_step df item) <> None.
Proof.
  intros H. destruct item as [c i]. unfold preprocess_step.
  destruct (get_col c df); repeat (match goal with
    | |- context [if ?b then _ else _] => destruct b end);
    auto; now apply get_set_some.
Qed.

Lemma preprocess_step_sets df c i :
  get_col i (preprocess_step df (c, i)) <> None.
Proof.
  unfold preprocess_step. destruct (get_col c df) as [s|] eqn:E.
  - destruct (mem i numeric_internal_cols);
      [unfold set_col, get_col; simpl; now rewrite lookup_upsert_eq|].
    destruct (String.eqb i c) eqn:Eic; simpl.
    + apply String.eqb_eq in Eic. subst. now rewrite E.
    + unfold set_col, get_col; simpl. now rewrite lookup_upsert_eq.
  - destruct (mem i numeric_internal_cols);
      unfold set_int_scalar, set_none, set_col, get_col; simpl;
      now rewrite lookup_upsert_eq.
Qed.

Lemma fold_preprocess_index items df :
  index (fold_left preprocess_step items df) = index df.
Proof.
  revert df. induction items as [|it items IH]; intros df; simpl; auto.
  now rewrite IH, preprocess_step_index.
Qed.

Lemma fold_preprocess_aligned items df :
  aligned df = true -> aligned (fold_left preprocess_step items df) = true.
Proof.
  revert df. induction items as [|it items IH]; intros df H; simpl; auto.
  apply IH. now apply preprocess_step_aligned.
Qed.

Lemma fold_preprocess_keeps items df g :
  get_col g df <> None ->
  get_col g (fold_left preprocess_step items df) <> None.
Proof.
  revert df. induction items as [|it items IH]; intros df H; simpl; auto.
  apply IH. now apply preprocess_step_keeps.
Qed.

Lemma fold_preprocess_sets items df i :
  In i (map snd items) ->
  get_col i (fold_left preprocess_step items df) <> None.
Proof.
  revert df. induction items as [|[c j] items IH]; intros df; simpl; [tauto|].
  intros [-> | H].
  - apply fold_preprocess_keeps, preprocess_step_sets.
  - now apply IH.
Qed.

Lemma index_wf df d :
  wf_frame df = true -> index d = index df -> aligned d = true ->
  wf_frame d = true.
Proof.
  intros [_ Hri]%wf_frame_spec Hidx Hal. apply wf_frame_spec. split; auto.
  apply range_index_spec in Hri. apply range_index_spec.
  unfold nrows in *. now rewrite Hidx.
Qed.

Lemma preprocess_data_index df : index (preprocess_data df) = index df.
Proof. apply fold_preprocess_index. Qed.

Lemma preprocess_data_nrows df : nrows (preprocess_data df) = nrows df.
Proof. unfold nrows. now rewrite preprocess_data_index. Qed.

Lemma preprocess_data_wf df :
  wf_frame df = true -> wf_frame (preprocess_data df) = true.
Proof.
  intros Hwf. apply (index_wf df); auto.
  - apply preprocess_data_index.
  - apply fold_preprocess_aligned. now apply wf_frame_spec in Hwf.
Qed.


Lemma series_map_length s : length (series_map self s) = series_len s.
Proof. destruct s; simpl; apply length_map. Qed.

(** The table [calculate_features] returns when there is a price column:
    the input with the four derived columns set, one entry per row each. *)
Lemma calculate_features_shape df sp :
  aligned df = true -> get_col "price_usd" df = Some sp ->
  exists s2 s3 s4,
    calculate_features self df =
    Some (set_col "brand_tier_weight" s4
            (set_col "engagement" s3
               (set_col "sales_velocity" s2
                  (set_col "profit_margin"
                     (FloatSeries
                        (profit_margins (numeric_robust sp 0)
                           (align (nrows df) (get_robust "cogs_usd" df))))
                     df))))
    /\ series_len s2 = nrows df /\ series_len s3 = nrows df
    /\ series_len s4 = nrows df.
Proof.
  intros Hal Hp. unfold calculate_features. rewrite Hp.
  set (f1 := set_col "profit_margin" _ df).
  set (f2 := set_col "sales_velocity" _ f1).
  set (f3 := set_col "engagement" _ f2).
  assert (N3 : nrows f3 = nrows df) by reflexivity.
  assert (A3 : aligned f3 = true).
  { unfold f3, f2, f1. repeat apply aligned_set_col; auto;
      rewrite ?nrows_set_col, ?align_len; auto.
    cbn [series_len]. apply profit_margins_len.
    - intros l. apply numeric_robust_numeric.
    - apply align_numeric. intros l. apply get_robust_numeric.
    - rewrite numeric_robust_len. eapply aligned_get; eauto.
    - apply align_len. }
  destruct (get_col "brand_tier" f3) as [sb|] eqn:Eb.
  - destruct (brand_tier_map self) as [|kv rest].
    + do 3 eexists. split; [reflexivity|].
      rewrite !align_len. simpl. rewrite repeat_length. auto.
    + do 3 eexists. split; [reflexivity|].
      rewrite !align_len. simpl. rewrite length_map, series_map_length.
      repeat split; auto. rewrite (aligned_get f3 _ sb A3 Eb). exact N3.
  - do 3 eexists. split; [reflexivity|].
    rewrite !align_len. simpl. rewrite repeat_length. auto.
Qed.

Lemma calculate_features_total df :
  get_col "price_usd" df <> None -> calculate_features self df <> None.
Proof.
  intros H. unfold calculate_features.
  destruct (get_col "price_usd" df); [|congruence].
  discriminate.
Qed.

Lemma calculate_features_wf df x :
  wf_frame df = true -> get_col "price_usd" df <> None ->
  calculate_features self df = Some x ->
  wf_frame x = true /\ index x = index df /\
  (forall g, get_col g df <> None -> get_col g x <> None) /\
  (forall g, String.eqb "profit_margin" g = false ->
             String.eqb "sales_velocity" g = false ->
             String.eqb "engagement" g = false ->
             String.eqb "brand_tier_weight" g = false ->
             get_col g x = get_col g df).
Proof.
  intros Hwf Hp Hx. pose proof Hwf as [Hal _]%wf_frame_spec.
  destruct (get_col "price_usd" df) as [sp|] eqn:Ep; [|congruence].
  destruct (calculate_features_shape df sp Hal Ep)
    as [s2 [s3 [s4 [E [L2 [L3 L4]]]]]].
  rewrite E in Hx. injection Hx as <-.
  assert (L1 : length (profit_margins (numeric_robust sp 0)
                         (align (nrows df) (get_robust "cogs_usd" df)))
               = nrows df).
  { apply profit_margins_len.
    - intros l. apply numeric_robust_numeric.
    - apply align_numeric. intros l. apply get_robust_numeric.
    - rewrite numeric_robust_len. eapply aligned_get; eauto.
    - apply align_len. }
  split; [|split; [reflexivity|split]].
  - apply (index_wf df); auto.
    repeat apply aligned_set_col; auto.
  - intros g Hg. repeat apply get_set_some. exact Hg.
  - intros g H1 H2 H3 H4. now rewrite !get_set_neq.
Qed.

End Stages.

Section DaysInProcess.

Context {backend : Pandas}.
Variable self : ProductScorer.

Lemma nth_error_to_numeric_robust s d p :
  nth_error (to_numeric_robust s d) p =
  option_map (fun c => fillna d (numeric_cell c)) (cell_at s p).
Proof.
  destruct s as [l|l|l]; simpl; rewrite nth_error_map;
    destruct (nth_error l p); reflexivity.
Qed.

Lemma of_Z_0 : of_Z 0 = 0%float.
Proof. vm_compute. reflexivity. Qed.



End DaysInProcess.



(* ================================================================== *)
(** ** Min-max normalisation *)

Section Normalizer.

Context {backend : Pandas}.

Lemma normalize_step_set df feature :
  normalize_step df feature =
  set_col (norm_name feature) (normalized (get_col feature df) (nrows df)) df.
Proof.
  unfold normalize_step, normalized, set_float_scalar.
  destruct (get_col feature df) as [s|]; [|reflexivity].
  destruct (negb (series_len s =? 0)%nat); [|reflexivity].
  destruct (numeric_robust s 0) as [l|l|l];
    repeat match goal with
           | |- context [if ?b then _ else _] => destruct b
           end; reflexivity.
Qed.

Lemma normalize_step_other df feature g :
  String.eqb (norm_name feature) g = false ->
  get_col g (normalize_step df feature) = get_col g df.
Proof. intros H. rewrite normalize_step_set. now apply get_set_neq. Qed.

Lemma normalize_step_index df feature :
  index (normalize_step df feature) = index df.
Proof. now rewrite normalize_step_set. Qed.

Lemma normalized_len col n :
  (forall s, col = Some s -> series_len s = n) ->
  series_len (normalized col n) = n.
Proof.
  intros H. unfold normalized. destruct col as [s|]; simpl;
    [|apply repeat_length].
  destruct (negb (series_len s =? 0)%nat); simpl; [|apply repeat_length].
  pose proof (numeric_robust_len s 0) as Hl. rewrite (H s eq_refl) in Hl.
  pose proof (numeric_robust_numeric s 0) as Hnum.
  destruct (numeric_robust s 0) as [l|l|l]; [| |now destruct (Hnum l)];
    simpl in Hl;
    repeat match goal with
           | |- context [if ?b then _ else _] => destruct b
           end; simpl; rewrite ?length_map, ?repeat_length; auto.
Qed.

Lemma normalize_step_aligned df feature :
  aligned df = true -> aligned (normalize_step df feature) = true.
Proof.
  intros Hal. rewrite normalize_step_set. apply aligned_set_col; auto.
  apply normalized_len. intros s Hs. eapply aligned_get; eauto.
Qed.

Lemma normalize_step_keeps df feature g :
  get_col g df <> None -> get_col g (normalize_step df feature) <> None.
Proof. intros H. rewrite normalize_step_set. now apply get_set_some. Qed.

Lemma normalize_features_index df : index (normalize_features df) = index df.
Proof.
  unfold normalize_features, features_to_normalize. cbn [fold_left].
  now rewrite !normalize_step_index.
Qed.

Lemma normalize_features_aligned df :
  aligned df = true -> aligned (normalize_features df) = true.
Proof.
  intros H. unfold normalize_features, features_to_normalize. cbn [fold_left].
  now repeat apply normalize_step_aligned.
Qed.

Lemma normalize_features_keeps df g :
  get_col g df <> None -> get_col g (normalize_features df) <> None.
Proof.
  intros H. unfold normalize_features, features_to_normalize. cbn [fold_left].
  now repeat apply normalize_step_keeps.
Qed.

(** Each normalised column is computed from the feature column of the input
    table: the turns of the loop do not disturb one another. *)
Lemma normalize_features_column df feature :
  In feature features_to_normalize ->
  get_col (norm_name feature) (normalize_features df) =
  Some (normalized (get_col feature df) (nrows df)).
Proof.
  intros Hin. unfold normalize_features, features_to_normalize in *.
  cbn [fold_left]. simpl in Hin.
  destruct Hin as [<- | [<- | [<- | [<- | []]]]];
    rewrite ?normalize_step_other by reflexivity;
    rewrite normalize_step_set, get_set_eq;
    unfold nrows; rewrite ?normalize_step_index;
    rewrite ?normalize_step_other by reflexivity; reflexivity.
Qed.


End Normalizer.

(** *** Minimum and maximum *)










(* ================================================================== *)
(** ** Profit margin *)


Lemma profit_margins_float p c :
  (exists l, p = FloatSeries l) \/ (exists l, c = FloatSeries l) ->
  profit_margins p c
  = map (fun pc => profit_margin_of (fst pc) (snd pc))
        (combine (values p) (values c)).
Proof.
  intros H. destruct p as [ps|ps|ps], c as [cs|cs|cs]; try reflexivity.
  destruct H as [[l H] | [l H]]; discriminate.
Qed.



(* ================================================================== *)
(** ** Weighted scores *)

Section Scores.

Context {backend : Pandas}.
Variable self : ProductScorer.

Lemma norm_col_not_score component :
  String.eqb "score" (norm_col_of component) = false.
Proof. reflexivity. Qed.

Lemma nth_map_combine {A B C} (g : A * B -> C) (a : list A) (b : list B)
      (da : A) (db : B) (dc : C) i :
  i < length a -> length a = length b ->
  nth i (map g (combine a b)) dc = g (nth i a da, nth i b db).
Proof.
  revert b i. induction a as [|x a IH]; intros [|y b] [|i]; simpl;
    intros Hi Hlen; try lia; auto.
  apply IH; lia.
Qed.

Lemma fold_score_step df ws acc log :
  aligned df = true -> length acc = nrows df ->
  fold_left (score_step) ws (set_col "score" (FloatSeries acc) df, log) =
  (set_col "score"
     (FloatSeries
        (map (fun i => fold_left (add_component df i) ws (nth i acc nan))
             (seq 0 (nrows df)))) df,
   log ++ flat_map (warning_of df) ws).
Proof.
  intros Hal. revert acc log.
  induction ws as [|[c w] ws IH]; intros acc log Hacc; cbn [fold_left flat_map].
  - rewrite app_nil_r. do 2 f_equal. f_equal.
    rewrite <- Hacc. rewrite (map_nth_seq (fun x => x)). now rewrite map_id.
  - unfold score_step at 2. unfold warning_of at 1. cbn [fst snd].
    rewrite (get_set_neq _ _ _ _ (norm_col_not_score c)).
    destruct (get_col (norm_col_of c) df) as [s|] eqn:Es.
    + rewrite set_set. unfold float_column at 1. rewrite get_set_eq.
      assert (Ls : length (to_numeric_robust s 0) = nrows df).
      { rewrite to_numeric_robust_length. eapply aligned_get; eauto. }
      rewrite IH
        by (rewrite length_map, length_combine, Hacc, Ls; apply Nat.min_id).
      do 2 f_equal. f_equal. apply map_ext_in. intros i Hi.
      apply in_seq in Hi. f_equal.
      rewrite (nth_map_combine _ _ _ nan nan) by lia.
      unfold add_component. cbn [fst snd]. now rewrite Es.
    + rewrite IH by assumption. rewrite <- app_assoc. do 2 f_equal.
      f_equal. apply map_ext_in. intros i _. f_equal.
      unfold add_component. cbn [fst snd]. now rewrite Es.
Qed.

Lemma calculate_scores_eq df :
  aligned df = true ->
  calculate_scores self df =
  (set_col "score"
     (FloatSeries (map (weighted_sum self df) (seq 0 (nrows df)))) df,
   expected_warnings self df).
Proof.
  intros Hal. unfold calculate_scores, set_float_scalar.
  rewrite fold_score_step by (auto; apply repeat_length).
  f_equal. do 2 f_equal. apply map_ext_in. intros i Hi. apply in_seq in Hi.
  rewrite nth_repeat_lt by lia. reflexivity.
Qed.

End Scores.

(** C6: [calculate_scores] gives every record the sum, over the configured
    weights in their order, of weight times the record's normalised feature,
    the weight [brand_tier] reading [norm_brand_tier_weight]; a weight whose
    normalised column is absent adds nothing and leaves one warning in the
    log; no other column changes, and with no weight configured every score
    is 0. *)
Theorem calculate_scores_weighted_sum {backend : Pandas} (self : ProductScorer)
        (df : DataFrame) :
  aligned df = true ->
  float_column "score" (fst (calculate_scores self df))
  = map (weighted_sum self df) (seq 0 (nrows df)) /\
  snd (calculate_scores self df) = expected_warnings self df /\
  norm_col_of "brand_tier" = "norm_brand_tier_weight" /\
  (forall g, String.eqb "score" g = false ->
             get_col g (fst (calculate_scores self df)) = get_col g df) /\
  (scoring_weights self = [] ->
   float_column "score" (fst (calculate_scores self df))
   = repeat 0%float (nrows df)).
Proof.
  intros Hal. rewrite (calculate_scores_eq self df Hal). cbn [fst snd].
  unfold float_column. rewrite get_set_eq.
  repeat split; auto.
  - intros g Hg. now apply get_set_neq.
  - intros Hw. unfold weighted_sum. rewrite Hw. cbn [fold_left].
    generalize (nrows df) as n. intros n. generalize 0 as a.
    induction n as [|n IH]; intros a; simpl; auto. now rewrite IH.
Qed.

Lemma calculate_scores_weighted_sum_witness :
  float_column "score"
    (fst (calculate_scores (backend := Backends.stable) Examples.sample_scorer
            (normalize_features (backend := Backends.stable)
               Examples.two_records)))
  = [0.25; 0.75]%float /\
  snd (calculate_scores (backend := Backends.stable) Examples.sample_scorer
         (normalize_features (backend := Backends.stable)
            Examples.two_records))
  = ["Normalized component 'norm_bogus' for scoring (weight='bogus') not found."].
Proof.
  destruct (calculate_scores_weighted_sum (backend := Backends.stable)
              Examples.sample_scorer
              (normalize_features (backend := Backends.stable)
                 Examples.two_records) eq_refl) as [Hs [Hw _]].
  split.
  - rewrite Hs. reflexivity.
  - rewrite Hw. reflexivity.
Defined.

(* ================================================================== *)
(** ** Ranking *)

Lemma Sorted_firstn {A} (R : A -> A -> Prop) k l :
  Sorted R l -> Sorted R (firstn k l).
Proof.
  revert l. induction k as [|k IH]; intros l H; simpl; [constructor|].
  destruct l as [|x l]; [constructor|].
  apply Sorted_inv in H as [Hs Hhd]. constructor; auto.
  destruct l as [|y l]; simpl; [destruct k; constructor|].
  destruct k; constructor. now inversion Hhd.
Qed.

Lemma Sorted_adjacent (l : list float) i :
  descending l -> S i < length l ->
  (nth (S i) l nan <=? nth i l nan)%float = true.
Proof.
  unfold descending. intros H. revert i.
  induction H as [|x l Hs IH Hhd]; intros i Hi; simpl in Hi; [lia|].
  destruct i as [|i].
  - destruct Hhd; simpl in *; [lia | assumption].
  - apply (IH i). lia.
Qed.

Lemma firstn_seq_le k a n : k <= n -> firstn k (seq a n) = seq a k.
Proof.
  revert a n. induction k as [|k IH]; intros a [|n] H; simpl; auto; [lia|].
  f_equal. apply IH. lia.
Qed.

Lemma get_col_map_some f g cols :
  lookup g cols <> None -> lookup g (map_columns f cols) <> None.
Proof.
  rewrite lookup_map_columns. now destruct (lookup g cols).
Qed.

Section Ranker.

Context {backend : Pandas}.

Lemma argsort_desc_length keys : length (argsort_desc keys) = length keys.
Proof.
  rewrite (Permutation_length (argsort_desc_perm keys)). apply length_seq.
Qed.

Lemma argsort_desc_int_length keys :
  length (argsort_desc_int keys) = length keys.
Proof.
  rewrite (Permutation_length (argsort_desc_int_perm keys)). apply length_seq.
Qed.

Lemma sort_indexer_length key :
  (forall l, key <> ObjSeries l) ->
  length (sort_indexer key) = series_len key.
Proof.
  intros H. destruct key as [l|l|l]; simpl.
  - apply argsort_desc_length.
  - apply argsort_desc_int_length.
  - now destruct (H l).
Qed.

Lemma nrows_sort_stage df : nrows (sort_stage df) = nrows df.
Proof.
  unfold sort_stage, take_rows, nrows; simpl.
  rewrite length_map, sort_indexer_length, align_len; [reflexivity|].
  apply align_numeric. intros l. apply get_robust_numeric.
Qed.

(** Where the coerced scores are no [int64] column the rows are sorted on
    their [float64] values. *)
Lemma sort_stage_keys df :
  (forall l, align (nrows df) (get_robust "score" df) <> IntSeries l) ->
  sort_stage df
  = take_rows
      (argsort_desc (align_floats (nrows df) (get_numeric "score" df)))
      (set_col "score"
         (FloatSeries (align_floats (nrows df) (get_numeric "score" df))) df).
Proof.
  intros Hni. unfold sort_stage.
  assert (E : align (nrows df) (get_robust "score" df)
              = FloatSeries (align_floats (nrows df)
                               (get_numeric "score" df))).
  { revert Hni. unfold get_robust, get_numeric.
    destruct (get_col "score" df) as [s|]; [|reflexivity].
    rewrite <- (values_numeric_robust s 0).
    pose proof (numeric_robust_numeric s 0) as Hnum.
    destruct (numeric_robust s 0) as [l|l|l]; [reflexivity| |now destruct (Hnum l)].
    unfold align. cbn [values].
    destruct (nrows df <=? length l)%nat; [|reflexivity].
    intros Hni. now destruct (Hni (firstn (nrows df) l)). }
  rewrite E. reflexivity.
Qed.

Lemma float_score_not_int df sc :
  get_col "score" df = Some (FloatSeries sc) ->
  forall l, align (nrows df) (get_robust "score" df) <> IntSeries l.
Proof. intros H l. unfold get_robust. rewrite H. discriminate. Qed.

Lemma no_score_not_int df :
  get_col "score" df = None ->
  forall l, align (nrows df) (get_robust "score" df) <> IntSeries l.
Proof. intros H l. unfold get_robust. rewrite H. discriminate. Qed.

(** The ranked table: its size, its [rank] and [score] columns, and the
    columns it keeps. *)
Lemma rank_products_columns df top_n sc :
  aligned df = true -> get_col "score" df = Some (FloatSeries sc) ->
  let k := head_count top_n (nrows df) in
  nrows (rank_products df top_n) = k /\
  aligned (rank_products df top_n) = true /\
  get_col "rank" (rank_products df top_n)
  = Some (IntSeries (map Z.of_nat (seq 1 k))) /\
  (exists scores,
      get_col "score" (rank_products df top_n) = Some (FloatSeries scores) /\
      descending scores /\ length scores = k) /\
  (forall g, get_col g df <> None ->
             get_col g (rank_products df top_n) <> None).
Proof.
  intros Hal Hs k.
  assert (Hk : k <= nrows df).
  { unfold k, head_count. destruct (0 <=? top_n)%Z; lia. }
  assert (Hn : nrows (reset_index (sort_stage df)) = nrows df).
  { unfold reset_index, nrows at 1; simpl.
    now rewrite length_seq, nrows_sort_stage. }
  set (s := FloatSeries sc) in *.
  assert (Hkeys : align_floats (nrows df) (get_numeric "score" df)
                  = to_numeric_robust s 0).
  { unfold get_numeric. rewrite Hs. apply align_floats_id.
    rewrite to_numeric_robust_length. eapply aligned_get; eauto. }
  unfold rank_products. cbv zeta. rewrite Hn. fold k.
  rewrite (sort_stage_keys df (float_score_not_int df sc Hs)) in *.
  set (R := reset_index (take_rows _ _)) in *.
  set (ranks := IntSeries (map Z.of_nat (seq 1 (nrows df)))).
  assert (Hhead : head_count top_n (nrows (set_col "rank" ranks R)) = k).
  { now rewrite nrows_set_col, Hn. }
  split; [|split; [|split; [|split]]].
  - now rewrite nrows_head.
  - apply aligned_head, aligned_set_col.
    + apply aligned_reset_index, aligned_take_rows.
    + unfold ranks. simpl. now rewrite length_map, length_seq.
  - unfold head. rewrite Hhead. unfold get_col; simpl.
    rewrite lookup_map_columns, lookup_upsert_eq. unfold ranks. simpl.
    do 2 f_equal. rewrite firstn_map. now rewrite firstn_seq_le.
  - unfold head. rewrite Hhead. unfold get_col; simpl.
    rewrite lookup_map_columns.
    rewrite lookup_upsert_neq by reflexivity.
    rewrite lookup_map_columns, lookup_upsert_eq. simpl.
    eexists. split; [reflexivity|]. split.
    + apply Sorted_firstn. apply argsort_desc_sorted.
      rewrite Hkeys. now apply to_numeric_robust_not_nan.
    + rewrite length_firstn, length_map, argsort_desc_length,
        align_floats_length. lia.
  - intros g Hg. unfold head, get_col; simpl.
    apply get_col_map_some.
    apply (get_set_some "rank" g ranks R).
    unfold R, reset_index, get_col, take_rows; simpl.
    apply get_col_map_some.
    apply (get_set_some "score" g _ df). exact Hg.
Qed.

End Ranker.

(* ================================================================== *)
(** ** The orchestrator *)

Arguments align n s : simpl never.

Lemma setitem_first name s :
  setitem name s (mkFrame [] []) = mkFrame (seq 0 (series_len s)) [(name, s)].
Proof.
  unfold setitem. simpl. destruct (series_len s) as [|n] eqn:E; simpl.
  - change (nrows (mkFrame [] [])) with 0. now rewrite (align_id 0 s E).
  - reflexivity.
Qed.

Lemma setitem_aligned name s df :
  series_len s = nrows df -> setitem name s df = set_col name s df.
Proof.
  intros H. unfold setitem. rewrite H.
  destruct (nrows df) as [|n] eqn:E; simpl;
    rewrite (align_id _ s H); reflexivity.
Qed.



Lemma final_output_exact ranked c1 c2 c3 c4 c5 :
  aligned ranked = true ->
  get_col "Product Name" ranked = Some c1 ->
  get_col "Brand" ranked = Some c2 ->
  get_col "price_usd" ranked = Some c3 ->
  get_col "score" ranked = Some c4 ->
  get_col "rank" ranked = Some c5 ->
  final_output ranked =
  mkFrame (seq 0 (nrows ranked))
    [ ("Product Name", c1); ("Brand", c2); ("Price (USD)", c3);
      ("score", c4); ("rank", c5) ].
Proof.
  intros Hal H1 H2 H3 H4 H5.
  pose proof (aligned_get ranked _ _ Hal H1) as L1.
  pose proof (aligned_get ranked _ _ Hal H2) as L2.
  pose proof (aligned_get ranked _ _ Hal H3) as L3.
  pose proof (aligned_get ranked _ _ Hal H4) as L4.
  pose proof (aligned_get ranked _ _ Hal H5) as L5.
  unfold final_output, get_or. rewrite H1, H2, H3, H4, H5. simpl from_option.
  rewrite setitem_first, L1.
  rewrite (setitem_aligned "Brand")
    by (unfold nrows; simpl; now rewrite length_seq).
  rewrite (setitem_aligned "Price (USD)")
    by (unfold nrows; simpl; now rewrite length_seq).
  rewrite (setitem_aligned "score")
    by (unfold nrows; simpl; now rewrite length_seq).
  rewrite (setitem_aligned "rank")
    by (unfold nrows; simpl; now rewrite length_seq).
  reflexivity.
Qed.

Section Orchestrator.

Context {backend : Pandas}.
Variable self : ProductScorer.

Lemma preprocess_has_price df :
  get_col "price_usd" (preprocess_data df) <> None.
Proof. apply fold_preprocess_sets. simpl. auto. Qed.

Lemma process_features df :
  exists x, calculate_features self (preprocess_data df) = Some x.
Proof.
  destruct (calculate_features self (preprocess_data df)) as [x|] eqn:E;
    [eauto|].
  now apply calculate_features_total in E; [|apply preprocess_has_price].
Qed.

Lemma process_unfold df top_n x :
  calculate_features self (preprocess_data df) = Some x ->
  process self df top_n =
  if empty df then Some (empty_frame out_cols)
  else if empty (apply_filters self x) then Some (empty_frame out_cols)
  else
    let final_output_df :=
      final_output
        (rank_products (scored self x) (from_option (default_top_n self) top_n)) in
    match select_columns out_cols final_output_df with
    | Some cols => Some (mkFrame (index final_output_df) cols)
    | None => None
    end.
Proof. intros E. unfold process. rewrite E. reflexivity. Qed.

Lemma scored_facts x :
  wf_frame x = true ->
  aligned (scored self x) = true /\
  nrows (scored self x) = nrows (apply_filters self x) /\
  (exists sc, get_col "score" (scored self x) = Some (FloatSeries sc)) /\
  (forall g, get_col g x <> None -> get_col g (scored self x) <> None).
Proof.
  intros Hwf.
  destruct (apply_filters_frame self x Hwf) as [_ [_ [_ Hwf']]].
  apply wf_frame_spec in Hwf' as [Hal' _].
  pose proof (normalize_features_aligned _ Hal') as HalN.
  unfold scored. rewrite (calculate_scores_eq self _ HalN). cbn [fst].
  split; [|split; [|split]].
  - apply aligned_set_col; auto. simpl. now rewrite length_map, length_seq.
  - unfold nrows. simpl. now rewrite normalize_features_index.
  - eexists. apply get_set_eq.
  - intros g Hg. apply get_set_some, normalize_features_keeps.
    unfold apply_filters, reset_index, get_col; simpl.
    destruct (filter_stage_selection self x Hwf) as [-> _].
    unfold take_rows; simpl. now apply get_col_map_some.
Qed.

Lemma some_of_not_none {A} (o : option A) : o <> None -> exists a, o = Some a.
Proof. destruct o; [eauto | congruence]. Qed.

(** The whole run on a loaded table that survives the filter. *)
Lemma process_ranked df top_n x :
  wf_frame df = true ->
  calculate_features self (preprocess_data df) = Some x ->
  let ranked :=
    rank_products (scored self x) (from_option (default_top_n self) top_n) in
  wf_frame x = true /\ nrows x = nrows df /\
  exists c1 c2 c3 c4 c5,
    get_col "Product Name" ranked = Some c1 /\
    get_col "Brand" ranked = Some c2 /\
    get_col "price_usd" ranked = Some c3 /\
    get_col "score" ranked = Some c4 /\
    get_col "rank" ranked = Some c5 /\
    (empty df = false -> empty (apply_filters self x) = false ->
     process self df top_n =
     Some (mkFrame (seq 0 (nrows ranked))
             [ ("Product Name", c1); ("Brand", c2); ("Price (USD)", c3);
               ("score", c4); ("rank", c5) ])).
Proof.
  intros Hwf Ex ranked.
  destruct (calculate_features_wf self (preprocess_data df) x
              (preprocess_data_wf df Hwf) (preprocess_has_price df) Ex)
    as [Hwfx [Hidx [Hkeep _]]].
  split; [exact Hwfx|]. split.
  { unfold nrows. now rewrite Hidx, preprocess_data_index. }
  destruct (scored_facts x Hwfx) as [HalS [_ [[sc Hsc] HkeepS]]].
  destruct (rank_products_columns (scored self x)
              (from_option (default_top_n self) top_n) _ HalS Hsc)
    as [_ [HalR [Hrank [[scores [Hscore _]] HkeepR]]]].
  fold ranked in HalR, Hrank, Hscore, HkeepR.
  assert (Hin : forall g, In g (map snd column_map) ->
                          exists c, get_col g ranked = Some c).
  { intros g Hg. apply some_of_not_none, HkeepR, HkeepS, Hkeep.
    now apply fold_preprocess_sets. }
  destruct (Hin "Product Name") as [c1 H1]; [simpl; tauto|].
  destruct (Hin "Brand") as [c2 H2]; [simpl; tauto|].
  destruct (Hin "price_usd") as [c3 H3]; [simpl; tauto|].
  do 5 eexists.
  split; [exact H1|]. split; [exact H2|]. split; [exact H3|].
  split; [exact Hscore|]. split; [exact Hrank|].
  intros He1 He2. rewrite (process_unfold df top_n x Ex), He1, He2.
  cbv zeta. fold ranked.
  rewrite (final_output_exact ranked _ _ _ _ _ HalR H1 H2 H3 Hscore Hrank).
  reflexivity.
Qed.

End Orchestrator.

(** The two ways a run on a loaded table ends: the empty table of the
    short-circuits, or the five columns of the ranked rows. *)
Lemma process_cases {backend : Pandas} (self : ProductScorer) (df : DataFrame)
      (top_n : option Z) :
  wf_frame df = true ->
  exists x,
    calculate_features self (preprocess_data df) = Some x /\
    wf_frame x = true /\ nrows x = nrows df /\
    ((process self df top_n = Some (empty_frame out_cols) /\
      (empty df = true \/ empty (apply_filters self x) = true)) \/
     (exists c1 c2 c3 scores k,
         process self df top_n =
         Some (mkFrame (seq 0 k)
                 [ ("Product Name", c1); ("Brand", c2); ("Price (USD)", c3);
                   ("score", FloatSeries scores);
                   ("rank", IntSeries (map Z.of_nat (seq 1 k))) ]) /\
         k = head_count (from_option (default_top_n self) top_n)
                        (nrows (apply_filters self x)) /\
         series_len c1 = k /\ series_len c2 = k /\ series_len c3 = k /\
         length scores = k /\ descending scores)).
Proof.
  intros Hwf. destruct (process_features self df) as [x Ex].
  exists x. split; [exact Ex|].
  destruct (process_ranked self df top_n x Hwf Ex)
    as [Hwfx [Hn [c1 [c2 [c3 [c4 [c5 [H1 [H2 [H3 [H4 [H5 Hproc]]]]]]]]]]]].
  split; [exact Hwfx|]. split; [exact Hn|].
  destruct (empty df) eqn:He1.
  { left. split; [|now left].
    rewrite (process_unfold self df top_n x Ex), He1. reflexivity. }
  destruct (empty (apply_filters self x)) eqn:He2.
  { left. split; [|now right].
    rewrite (process_unfold self df top_n x Ex), He1, He2. reflexivity. }
  right.
  destruct (scored_facts self x Hwfx) as [HalS [HnS [[sc Hsc] _]]].
  pose proof (rank_products_columns (scored self x)
                (from_option (default_top_n self) top_n) _ HalS Hsc) as HR.
  cbv zeta in HR. rewrite HnS in HR.
  destruct HR as [Hk [HalR [Hrank [[scores [Hscore [Hdesc Hlen]]] _]]]].
  rewrite Hscore in H4. injection H4 as <-.
  rewrite Hrank in H5. injection H5 as <-.
  exists c1, c2, c3, scores,
    (head_count (from_option (default_top_n self) top_n)
                (nrows (apply_filters self x))).
  split; [rewrite (Hproc eq_refl eq_refl), Hk; reflexivity|].
  split; [reflexivity|].
  rewrite <- Hk.
  split; [eapply aligned_get; eauto|].
  split; [eapply aligned_get; eauto|].
  split; [eapply aligned_get; eauto|].
  split; [now rewrite Hk|exact Hdesc].
Qed.



Lemma empty_spec df :
  empty df = true <-> nrows df = 0 \/ columns df = [].
Proof.
  unfold empty. rewrite orb_true_iff, !Nat.eqb_eq.
  split; intros [H | H]; auto; right.
  - now apply length_zero_iff_nil.
  - now rewrite H.
Qed.

Lemma apply_filters_none_left {backend : Pandas} (self : ProductScorer) x :
  wf_frame x = true -> nrows x = 0 -> nrows (apply_filters self x) = 0.
Proof.
  intros Hwf Hn.
  destruct (apply_filters_frame self x Hwf) as [Hb [Hlen _]].
  rewrite Hlen. destruct (index (filter_stage self x)) as [|p idx]; auto.
  inversion Hb; subst. lia.
Qed.

Lemma apply_filters_empty_rows {backend : Pandas} (self : ProductScorer) x :
  wf_frame x = true -> get_col "price_usd" x <> None ->
  empty (apply_filters self x) = true -> nrows (apply_filters self x) = 0.
Proof.
  intros Hwf Hp [H | H]%empty_spec; auto. exfalso. apply Hp.
  destruct (apply_filters_frame self x Hwf) as [_ [_ [Hnames _]]].
  unfold column_names in Hnames. rewrite H in Hnames. simpl in Hnames.
  symmetry in Hnames. apply map_eq_nil in Hnames.
  unfold get_col. now rewrite Hnames.
Qed.

(** C2, as the code has it: for a loaded table (whose rows have at least one
    column) the output has [min(top_n, n)] rows when [top_n >= 0], where [n]
    records survive the filter; for a negative [top_n], [head] drops the last
    [|top_n|] ranked rows, so the output has [n - |top_n|] rows (none only
    when [|top_n| >= n]). *)
Theorem process_output_length {backend : Pandas} (self : ProductScorer)
        (df : DataFrame) (top_n : option Z) :
  wf_frame df = true -> (columns df = [] -> nrows df = 0) ->
  exists x out,
    calculate_features self (preprocess_data df) = Some x /\
    process self df top_n = Some out /\
    aligned out = true /\
    let k := from_option (default_top_n self) top_n in
    let n := nrows (apply_filters self x) in
    ((0 <= k)%Z -> nrows out = Nat.min (Z.to_nat k) n) /\
    ((k < 0)%Z -> nrows out = n - Z.to_nat (- k)).
Proof.
  intros Hwf Hcols.
  destruct (process_cases self df top_n Hwf) as [x [Ex [Hwfx [Hn Hcase]]]].
  assert (Hprice : get_col "price_usd" x <> None).
  { destruct (calculate_features_wf self (preprocess_data df) x
                (preprocess_data_wf df Hwf) (preprocess_has_price df) Ex)
      as [_ [_ [Hkeep _]]].
    apply Hkeep, preprocess_has_price. }
  assert (Hcount : forall k n,
             ((0 <= k)%Z -> head_count k n = Nat.min (Z.to_nat k) n) /\
             ((k < 0)%Z -> head_count k n = n - Z.to_nat (- k))).
  { intros k n. unfold head_count.
    destruct (0 <=? k)%Z eqn:E; split; intros Hk; auto.
    - apply Z.leb_le in E. lia.
    - apply Z.leb_gt in E. lia. }
  exists x.
  destruct Hcase as [[Hout Hempty] | [c1 [c2 [c3 [scores [k Hmain]]]]]].
  - exists (empty_frame out_cols). split; [exact Ex|]. split; [exact Hout|].
    split; [reflexivity|].
    assert (H0 : nrows (apply_filters self x) = 0).
    { destruct Hempty as [He | He].
      - apply apply_filters_none_left; auto. rewrite Hn.
        apply empty_spec in He as [He | He]; auto.
      - now apply apply_filters_empty_rows. }
    cbv zeta. rewrite H0.
    change (nrows (empty_frame out_cols)) with 0.
    split; intros _; lia.
  - destruct Hmain as [Hout [Hk [L1 [L2 [L3 [L4 _]]]]]].
    eexists. split; [exact Ex|]. split; [exact Hout|]. split.
    + apply aligned_spec. unfold nrows; simpl. rewrite length_seq.
      repeat constructor; simpl; auto.
      now rewrite length_map, length_seq.
    + cbv zeta. unfold nrows at 1 3; simpl. rewrite length_seq, Hk.
      apply Hcount.
Qed.

Lemma process_output_length_witness :
  exists out,
    process (backend := Backends.stable) Examples.sample_scorer
      Examples.sample_data (Some 1%Z) = Some out /\
    nrows out = 1.
Proof.
  destruct (process_output_length (backend := Backends.stable)
              Examples.sample_scorer Examples.sample_data (Some 1%Z)
              eq_refl ltac:(discriminate))
    as [x [out [Hx [Hout [_ [Hpos _]]]]]].
  exists out. split; [exact Hout|].
  rewrite (Hpos ltac:(cbv; discriminate)).
  vm_compute in Hx. injection Hx as <-. reflexivity.
Defined.

(** Against C2 as first stated: with [top_n = -1] the test table, of which
    two records survive the filter, gives one ranked row, not none. *)
Lemma negative_top_n_not_empty :
  exists out,
    process (backend := Backends.stable) Examples.sample_scorer
      Examples.sample_data (Some (-1)%Z) = Some out /\
    nrows out = 1 /\ nrows out <> 0.
Proof.
  eexists. split; [vm_compute; reflexivity|].
  split; [reflexivity | discriminate].
Qed.

(** C4: in every output the ranks are exactly 1, 2, ..., K for the K output
    rows, and the scores do not increase along the ranks: the score at rank
    [i+1] is at most the score at rank [i]. *)
Theorem process_ranks_and_order {backend : Pandas} (self : ProductScorer)
        (df : DataFrame) (top_n : option Z) :
  wf_frame df = true ->
  exists out scores,
    process self df top_n = Some out /\
    column_cells "rank" out
    = map (fun i => CInt (Z.of_nat i)) (seq 1 (nrows out)) /\
    column_cells "score" out = map CFloat scores /\
    length scores = nrows out /\
    descending scores /\
    (forall i, S i < nrows out ->
               (nth (S i) scores nan <=? nth i scores nan)%float = true).
Proof.
  intros Hwf.
  destruct (process_cases self df top_n Hwf) as [x [Ex [Hwfx [Hn Hcase]]]].
  destruct Hcase as [[Hout _] | [c1 [c2 [c3 [scores [k Hmain]]]]]].
  - exists (empty_frame out_cols), []. split; [exact Hout|].
    repeat split; try reflexivity; [constructor|].
    intros i Hi. change (nrows (empty_frame out_cols)) with 0 in Hi. lia.
  - destruct Hmain as [Hout [_ [_ [_ [_ [L4 Hdesc]]]]]].
    eexists. exists scores. split; [exact Hout|].
    assert (Hk : nrows (mkFrame (seq 0 k)
                   [ ("Product Name", c1); ("Brand", c2); ("Price (USD)", c3);
                     ("score", FloatSeries scores);
                     ("rank", IntSeries (map Z.of_nat (seq 1 k))) ]) = k).
    { unfold nrows; simpl. apply length_seq. }
    rewrite Hk. split; [|split; [|split; [|split]]]; auto.
    + unfold column_cells, get_col; simpl. apply map_map.
    + intros i Hi. apply Sorted_adjacent; auto. lia.
Qed.

Lemma process_ranks_and_order_witness :
  exists out,
    process (backend := Backends.stable) Examples.sample_scorer
      Examples.sample_data None = Some out /\
    column_cells "rank" out = [CInt 1; CInt 2].
Proof.
  destruct (process_ranks_and_order (backend := Backends.stable)
              Examples.sample_scorer Examples.sample_data None eq_refl)
    as [out [scores [Hout [Hrank _]]]].
  exists out. split; [exact Hout|]. rewrite Hrank.
  vm_compute in Hout. injection Hout as <-. reflexivity.
Defined.

(* ================================================================== *)
(** ** The order of the ranking *)

Lemma permutation_bounded idx n :
  Permutation idx (seq 0 n) -> Forall (fun p => p < n) idx.
Proof.
  intros H. apply Forall_forall. intros p Hp.
  apply (Permutation_in _ H) in Hp. apply in_seq in Hp. lia.
Qed.

(** C3, as the code has it: the sort behind [rank_products] keeps every
    record exactly once (the sorted rows are the input rows, with the coerced
    score, at a rearrangement of the labels) and puts the scores in
    descending order.  The rearrangement is the one the indexer of
    [sort_values] returns for the coerced scores: the code names no sort
    kind, so nothing fixes the order of records of equal score. *)
Theorem sort_stage_order {backend : Pandas} (df : DataFrame)
        (scores : list float) :
  wf_frame df = true -> get_col "score" df = Some (FloatSeries scores) ->
  Permutation (index (sort_stage df)) (index df) /\
  rows (sort_stage df)
  = map (row_at (set_col "score" (FloatSeries (map (fillna 0) scores)) df))
        (index (sort_stage df)) /\
  descending (float_column "score" (sort_stage df)) /\
  index (sort_stage df) = argsort_desc (map (fillna 0) scores).
Proof.
  intros Hwf Hs. pose proof Hwf as [Hal Hri]%wf_frame_spec.
  set (s := FloatSeries scores) in *.
  change (map (fillna 0) scores) with (to_numeric_robust s 0).
  assert (Hkeys : align_floats (nrows df) (get_numeric "score" df)
                  = to_numeric_robust s 0).
  { unfold get_numeric. rewrite Hs. apply align_floats_id.
    rewrite to_numeric_robust_length. eapply aligned_get; eauto. }
  assert (Hlen : length (to_numeric_robust s 0) = nrows df).
  { rewrite to_numeric_robust_length. eapply aligned_get; eauto. }
  assert (Hss := sort_stage_keys df (float_score_not_int df scores Hs)).
  rewrite Hkeys in Hss.
  assert (Hidx : index (sort_stage df) = argsort_desc (to_numeric_robust s 0)).
  { rewrite Hss. apply index_take_rows; auto.
    rewrite nrows_set_col, <- Hlen.
    apply permutation_bounded, argsort_desc_perm. }
  assert (Hsc : float_column "score" (sort_stage df)
                = map (fun i => nth i (to_numeric_robust s 0) nan)
                      (argsort_desc (to_numeric_robust s 0))).
  { rewrite Hss. unfold float_column, take_rows, get_col; simpl.
    rewrite lookup_map_columns, lookup_upsert_eq. reflexivity. }
  split; [|split; [|split]].
  - rewrite Hidx. apply range_index_spec in Hri. rewrite Hri, <- Hlen.
    apply argsort_desc_perm.
  - rewrite Hidx, Hss.
    apply rows_take_rows.
    + apply aligned_set_col; [exact Hal | exact Hlen].
    + rewrite nrows_set_col, <- Hlen.
      apply permutation_bounded, argsort_desc_perm.
  - rewrite Hsc. apply argsort_desc_sorted.
    now apply to_numeric_robust_not_nan.
  - exact Hidx.
Qed.

Lemma sort_stage_order_witness :
  Permutation
    (index (sort_stage (backend := Backends.reversing) Examples.tied_four))
    [0; 1; 2; 3] /\
  descending
    (float_column "score"
       (sort_stage (backend := Backends.reversing) Examples.tied_four)).
Proof.
  destruct (sort_stage_order (backend := Backends.reversing)
              Examples.tied_four [0; 0; 1; 2]%float eq_refl eq_refl)
    as [H1 [_ [H3 _]]].
  split; [exact H1 | exact H3].
Defined.

(** Against C3 as first stated: [sort_values] is called with no [kind], and
    the default kind is not a stable one.  Four records a, b, c, d with the
    scores 0, 0, 1, 2 come out d, c, b, a under a kind that breaks a tie
    towards the later row: b, the second of the two tied records, is ranked
    third and a, the first, fourth. *)
Lemma ties_reordered :
  wf_frame Examples.tied_four = true /\
  index (sort_stage (backend := Backends.reversing) Examples.tied_four)
  = [3; 2; 1; 0] /\
  ~ ties_keep_order (sort_stage (backend := Backends.reversing)
                       Examples.tied_four) /\
  column_cells "Product Name"
    (rank_products (backend := Backends.reversing) Examples.tied_four 4)
  = [CObj (OStr "d"); CObj (OStr "c"); CObj (OStr "b"); CObj (OStr "a")] /\
  column_cells "rank"
    (rank_products (backend := Backends.reversing) Examples.tied_four 4)
  = [CInt 1; CInt 2; CInt 3; CInt 4].
Proof.
  split; [reflexivity|]. split; [vm_compute; reflexivity|].
  split; [|split; vm_compute; reflexivity].
  intros H. unfold ties_keep_order in H. vm_compute in H.
  do 2 (inversion H as [|? ? _ H']; subst; clear H; rename H' into H).
  inversion H as [|? ? Hhd _]; subst.
  inversion Hhd as [|? ? Hlt _]; subst.
  specialize (Hlt eq_refl). lia.
Qed.

(* ================================================================== *)
(** ** Further properties: numeric coercion *)

(** X1: [_to_numeric_robust] never fails and returns a fully numeric column
    of the same length: under a default that is a number no entry is [NaN],
    and each entry is the number its cell stands for, or the default when the
    cell stands for none. *)
Theorem to_numeric_robust_numeric {backend : Pandas} (s : Series) (d : float) :
  is_nan d = false ->
  length (to_numeric_robust s d) = series_len s /\
  Forall (fun x => is_nan x = false) (to_numeric_robust s d) /\
  (forall p c, cell_at s p = Some c ->
     nth_error (to_numeric_robust s d) p
     = Some (if is_nan (numeric_cell c) then d else numeric_cell c)).
Proof.
  intros Hd. split; [apply to_numeric_robust_length|].
  split; [now apply to_numeric_robust_not_nan|].
  intros p c Hc. rewrite nth_error_to_numeric_robust, Hc. reflexivity.
Qed.

Lemma to_numeric_robust_numeric_witness :
  nth_error (to_numeric_robust (backend := Backends.stable)
               (ObjSeries [OStr "1,250"; ONull; OStr "n/a"]) 0) 0
  = Some 1250%float /\
  nth_error (to_numeric_robust (backend := Backends.stable)
               (ObjSeries [OStr "1,250"; ONull; OStr "n/a"]) 0) 2
  = Some 0%float.
Proof.
  destruct (to_numeric_robust_numeric (backend := Backends.stable)
              (ObjSeries [OStr "1,250"; ONull; OStr "n/a"]) 0%float eq_refl)
    as [_ [_ H]].
  split.
  - exact (H 0 (CObj (OStr "1,250")) eq_refl).
  - exact (H 2 (CObj (OStr "n/a")) eq_refl).
Defined.

(** X2: coercion is idempotent: a column that went through
    [_to_numeric_robust] with a numeric default comes back unchanged from any
    later coercion, whatever default that one uses. *)
Theorem to_numeric_robust_idempotent {backend : Pandas} (s : Series)
        (d d' : float) :
  is_nan d = false ->
  to_numeric_robust (FloatSeries (to_numeric_robust s d)) d'
  = to_numeric_robust s d.
Proof.
  intros Hd. simpl. apply map_fillna_id. now apply to_numeric_robust_not_nan.
Qed.

Lemma to_numeric_robust_idempotent_witness :
  to_numeric_robust (backend := Backends.stable)
    (FloatSeries
       (to_numeric_robust (backend := Backends.stable)
          (ObjSeries [OStr "30"; ONull]) 0)) infinity
  = [30; 0]%float.
Proof.
  rewrite (to_numeric_robust_idempotent (backend := Backends.stable)
             (ObjSeries [OStr "30"; ONull]) 0 infinity eq_refl).
  reflexivity.
Defined.

Lemma remove_commas_app (s1 s2 : string) :
  remove_commas (String.append s1 s2)
  = String.append (remove_commas s1) (remove_commas s2).
Proof.
  induction s1 as [|c s1 IH]; simpl; auto.
  destruct (Ascii.eqb c ","); simpl; now rewrite IH.
Qed.

(** X3: every comma of a text cell is dropped before parsing, wherever it
    stands: a cell with a comma coerces to the same number as the cell
    without it, and dropping commas twice is dropping them once. *)
Theorem to_numeric_robust_ignores_commas {backend : Pandas} (s1 s2 : string)
        (d : float) :
  to_numeric_robust (ObjSeries [OStr (String.append s1 (String "," s2))]) d
  = to_numeric_robust (ObjSeries [OStr (String.append s1 s2)]) d /\
  remove_commas (remove_commas (String.append s1 s2))
  = remove_commas (String.append s1 s2).
Proof.
  split.
  - simpl. now rewrite !remove_commas_app.
  - generalize (String.append s1 s2) as s.
    induction s as [|c s IH]; simpl; auto.
    destruct (Ascii.eqb c ",") eqn:E; simpl; rewrite ?E, IH; reflexivity.
Qed.

(* ================================================================== *)
(** ** Further properties: schema normalisation *)

Section MorePreprocess.

Context {backend : Pandas}.

Lemma preprocess_step_value X df c i :
  get_col c X = get_col c df -> nrows X = nrows df ->
  get_col i (preprocess_step X (c, i)) = Some (canonical_column df c i).
Proof.
  intros HX HN. unfold preprocess_step, canonical_column. rewrite HX.
  destruct (get_col c df) as [s|] eqn:E.
  - destruct (mem i numeric_internal_cols); [apply get_set_eq|].
    destruct (String.eqb i c) eqn:Eic; simpl; [|apply get_set_eq].
    apply String.eqb_eq in Eic. subst i. now rewrite HX.
  - destruct (mem i numeric_internal_cols);
      unfold set_int_scalar, set_none; rewrite get_set_eq, HN; reflexivity.
Qed.

(** Each internal column after [preprocess_data], read off the raw table. *)
Lemma preprocess_data_column df c i :
  In (c, i) column_map ->
  get_col i (preprocess_data df) = Some (canonical_column df c i).
Proof.
  intros Hin. unfold column_map in Hin. simpl in Hin.
  repeat (destruct Hin as [Hin | Hin];
          [injection Hin as <- <-;
           unfold preprocess_data, column_map; cbn [fold_left];
           rewrite ?preprocess_step_other by reflexivity;
           apply preprocess_step_value;
           [rewrite ?preprocess_step_other by reflexivity; reflexivity
           |unfold nrows; rewrite ?preprocess_step_index; reflexivity]|]).
  destruct Hin.
Qed.

Lemma preprocess_step_untouched X c i g s :
  String.eqb i g = false \/ (i = c /\ mem i numeric_internal_cols = false) ->
  get_col g X = Some s -> get_col g (preprocess_step X (c, i)) = Some s.
Proof.
  intros [Hg | [-> Hmem]] Hs.
  - now rewrite preprocess_step_other.
  - destruct (String.eqb c g) eqn:Ecg;
      [|now rewrite preprocess_step_other].
    apply String.eqb_eq in Ecg. subst g.
    unfold preprocess_step. now rewrite Hs, Hmem, String.eqb_refl.
Qed.

Lemma mem_false_iff g l : mem g l = false <-> ~ In g l.
Proof.
  unfold mem. split.
  - intros H Hin. assert (E : existsb (String.eqb g) l = true).
    { apply existsb_exists. exists g. split; auto. apply String.eqb_refl. }
    congruence.
  - intros H. destruct (existsb (String.eqb g) l) eqn:E; auto.
    apply existsb_exists in E as [x [Hx Ex]].
    apply String.eqb_eq in Ex. subst. contradiction.
Qed.

Lemma not_in_eqb g (l : list string) i :
  ~ In g l -> In i l -> String.eqb i g = false.
Proof.
  intros Hg Hi. destruct (String.eqb i g) eqn:E; auto.
  apply String.eqb_eq in E. subst. contradiction.
Qed.

End MorePreprocess.

(** X4: after [preprocess_data] every canonical column is there, whatever
    the raw table held.  A numeric one is the coerced raw column: an [int64]
    column as it was, a [float64] column with zeros for its missing values, a
    text column parsed ([int64] when every string is an integer, [float64]
    with zeros for what does not parse otherwise); where the raw column is
    absent it is a column of [int64] zeros.  Read as numbers it holds no
    [NaN].  [brand_tier], [Product Name] and [Brand] hold the raw column, or
    [None] for every row when it is absent.  The row labels are those of the
    input. *)
Theorem preprocess_data_canonical {backend : Pandas} (df : DataFrame)
        (csv_col internal_col : string) :
  In (csv_col, internal_col) column_map ->
  get_col internal_col (preprocess_data df)
  = Some (canonical_column df csv_col internal_col) /\
  index (preprocess_data df) = index df /\
  (mem internal_col numeric_internal_cols = true ->
   (forall l, get_col csv_col df = Some (IntSeries l) ->
              canonical_column df csv_col internal_col = IntSeries l) /\
   (forall l, get_col csv_col df = Some (FloatSeries l) ->
              canonical_column df csv_col internal_col
              = FloatSeries (map (fillna 0) l)) /\
   (forall l, canonical_column df csv_col internal_col <> ObjSeries l) /\
   Forall (fun x => is_nan x = false)
          (to_numeric_robust (canonical_column df csv_col internal_col) nan)) /\
  (aligned df = true ->
   series_len (canonical_column df csv_col internal_col) = nrows df).
Proof.
  intros Hin. split; [now apply preprocess_data_column|].
  split; [apply preprocess_data_index|]. split.
  - intros Hmem. unfold canonical_column. rewrite Hmem.
    split; [now intros l ->|]. split; [now intros l ->|].
    destruct (get_col csv_col df) as [s|].
    + split; [intros l; apply numeric_robust_numeric|].
      rewrite to_numeric_robust_again by reflexivity.
      now apply to_numeric_robust_not_nan.
    + split; [discriminate|]. simpl.
      apply Forall_forall. intros x Hx.
      apply in_map_iff in Hx as [z [<- Hz]].
      rewrite fillna_of_Z. apply of_Z_not_nan.
  - intros Hal. unfold canonical_column.
    destruct (get_col csv_col df) as [s|] eqn:E.
    + destruct (mem internal_col numeric_internal_cols);
        rewrite ?numeric_robust_len; eapply aligned_get; eauto.
    + destruct (mem internal_col numeric_internal_cols); simpl;
        apply repeat_length.
Qed.

(** The table of the tests: the stock is an [int64] column and stays one;
    the inventory ages are text with a missing value and a comma, and become
    a [float64] column; a brand that is not there is [None] throughout. *)
Lemma preprocess_data_canonical_witness :
  get_col "units_in_stock"
    (preprocess_data (backend := Backends.stable) Examples.sample_data)
  = Some (IntSeries [50; 20; 5]%Z) /\
  get_col "days_of_inventory"
    (preprocess_data (backend := Backends.stable) Examples.sample_data)
  = Some (FloatSeries [30; 0; 60]%float) /\
  get_col "Brand"
    (preprocess_data (backend := Backends.stable) Examples.tied_catalog)
  = Some (ObjSeries (repeat ONull 18)).
Proof.
  split; [|split].
  - exact (proj1 (preprocess_data_canonical (backend := Backends.stable)
                    Examples.sample_data "Units in Stock" "units_in_stock"
                    ltac:(simpl; tauto))).
  - exact (proj1 (preprocess_data_canonical (backend := Backends.stable)
                    Examples.sample_data "Days of Inventory"
                    "days_of_inventory" ltac:(simpl; tauto))).
  - exact (proj1 (preprocess_data_canonical (backend := Backends.stable)
                    Examples.tied_catalog "Brand" "Brand"
                    ltac:(simpl; tauto))).
Defined.

(** X5: [preprocess_data] only adds: a column of the raw table comes back
    unchanged unless it bears one of the seven derived internal names. *)
Theorem preprocess_data_keeps_raw {backend : Pandas} (df : DataFrame)
        (g : string) (s : Series) :
  ~ In g derived_internal_cols ->
  get_col g df = Some s ->
  get_col g (preprocess_data df) = Some s.
Proof.
  intros Hg Hs. unfold preprocess_data, column_map. cbn [fold_left].
  assert (Hd : forall i, In i derived_internal_cols -> String.eqb i g = false)
    by (intros i Hi; now apply (not_in_eqb g derived_internal_cols)).
  repeat (apply preprocess_step_untouched;
          [first [left; apply Hd; simpl; tauto
                 |right; split; reflexivity]|]).
  exact Hs.
Qed.

Lemma preprocess_data_keeps_raw_witness :
  get_col "Price (USD)"
    (preprocess_data (backend := Backends.stable) Examples.sample_data)
  = Some (IntSeries [100; 50; 30]%Z).
Proof.
  apply (preprocess_data_keeps_raw (backend := Backends.stable)
           Examples.sample_data "Price (USD)").
  - unfold derived_internal_cols, numeric_internal_cols. simpl.
    intros H. repeat (destruct H as [H | H]; [discriminate H|]). exact H.
  - reflexivity.
Defined.

Section PreprocessTwice.

Context {backend : Pandas}.

Lemma upsert_same name s cols :
  lookup name cols = Some s -> upsert name s cols = cols.
Proof.
  induction cols as [|[c x] rest IH]; simpl; [discriminate|].
  destruct (String.eqb c name) eqn:E.
  - now intros [= ->].
  - intros H. now rewrite IH.
Qed.

Lemma set_col_same name s df :
  get_col name df = Some s -> set_col name s df = df.
Proof.
  intros H. destruct df as [idx cols]. unfold set_col; simpl.
  f_equal. now apply upsert_same.
Qed.

Lemma preprocess_step_fixed X df c i :
  get_col c X = get_col c df -> nrows X = nrows df ->
  get_col i X = Some (canonical_column df c i) ->
  preprocess_step X (c, i) = X.
Proof.
  intros HX HN Hi. unfold preprocess_step, canonical_column in *.
  rewrite HX. destruct (get_col c df) as [s|].
  - destruct (mem i numeric_internal_cols); [now apply set_col_same|].
    destruct (String.eqb i c); simpl; auto. now apply set_col_same.
  - destruct (mem i numeric_internal_cols);
      unfold set_int_scalar, set_none; rewrite HN; now apply set_col_same.
Qed.

Lemma preprocess_step_present X c v :
  get_col c X = Some v -> mem c numeric_internal_cols = false ->
  preprocess_step X (c, c) = X.
Proof.
  intros Hc Hmem. unfold preprocess_step.
  now rewrite Hc, Hmem, String.eqb_refl.
Qed.

End PreprocessTwice.

(** X6: [preprocess_data] is idempotent: canonicalising a canonical table
    changes nothing. *)
Theorem preprocess_data_idempotent {backend : Pandas} (df : DataFrame) :
  preprocess_data (preprocess_data df) = preprocess_data df.
Proof.
  set (D := preprocess_data df).
  assert (Hraw : forall c i, In (c, i) column_map ->
                 String.eqb i c = false -> get_col c D = get_col c df).
  { intros c i Hin Hne. unfold column_map in Hin. simpl in Hin.
    repeat (destruct Hin as [Hin | Hin];
            [injection Hin as <- <-; try discriminate Hne;
             unfold D, preprocess_data, column_map; cbn [fold_left];
             rewrite ?preprocess_step_other by reflexivity; reflexivity|]).
    destruct Hin. }
  assert (Hfix : forall c i, In (c, i) column_map ->
                 String.eqb i c = false -> preprocess_step D (c, i) = D).
  { intros c i Hin Hne. apply (preprocess_step_fixed D df).
    - now apply (Hraw c i).
    - apply preprocess_data_nrows.
    - now apply preprocess_data_column. }
  assert (Hsame : forall c, In (c, c) column_map ->
                  mem c numeric_internal_cols = false ->
                  preprocess_step D (c, c) = D).
  { intros c Hin Hmem.
    apply (preprocess_step_present D c (canonical_column df c c)); auto.
    now apply preprocess_data_column. }
  unfold preprocess_data at 1. unfold column_map. cbn [fold_left].
  rewrite (Hfix "Price (USD)" "price_usd") by (simpl; tauto).
  rewrite (Hfix "COGS (USD)" "cogs_usd") by (simpl; tauto).
  rewrite (Hfix "Units in Stock" "units_in_stock") by (simpl; tauto).
  rewrite (Hfix "Days of Inventory" "days_of_inventory") by (simpl; tauto).
  rewrite (Hfix "Views Last Month" "views_last_month") by (simpl; tauto).
  rewrite (Hfix "Volume Sold Last Month" "volume_sold_last_month")
    by (simpl; tauto).
  rewrite (Hfix "Brand Tier" "brand_tier") by (simpl; tauto).
  rewrite (Hsame "Product Name") by (simpl; tauto).
  rewrite (Hsame "Brand") by (simpl; tauto).
  reflexivity.
Qed.

(* ================================================================== *)
(** ** Further properties: feature derivation *)

Lemma sub_nan_r (p c : float) : is_nan c = true -> is_nan (p - c)%float = true.
Proof.
  intros Hc. apply is_nan_SF in Hc. apply is_nan_SF.
  rewrite sub_spec, Hc. unfold SF64sub, SFsub.
  now destruct (Prim2SF p).
Qed.

Lemma div_nan_l (a p : float) : is_nan a = true -> is_nan (a / p)%float = true.
Proof.
  intros Ha. apply is_nan_SF in Ha. apply is_nan_SF.
  rewrite div_spec, Ha. reflexivity.
Qed.

Lemma profit_margin_of_nan_cogs (price cogs : float) :
  is_nan cogs = true -> profit_margin_of price cogs = 0%float.
Proof.
  intros Hc. unfold profit_margin_of.
  destruct (0 <? price)%float; [|reflexivity].
  apply fillna_nan. now apply div_nan_l, sub_nan_r.
Qed.

(** X8: a table with a price column but no [cogs_usd] column gets profit
    margin 0 for every record: the margin over a missing cost is undefined,
    and undefined margins are turned into 0. *)
Theorem missing_cogs_zero_margin {backend : Pandas} (self : ProductScorer)
        (df : DataFrame) (sp : Series) :
  aligned df = true ->
  get_col "price_usd" df = Some sp ->
  get_col "cogs_usd" df = None ->
  exists x,
    calculate_features self df = Some x /\
    get_col "profit_margin" x = Some (FloatSeries (repeat 0%float (nrows df))).
Proof.
  intros Hal Hp Hc.
  destruct (calculate_features_shape self df sp Hal Hp)
    as [s2 [s3 [s4 [E _]]]].
  eexists. split; [exact E|].
  rewrite !get_set_neq by reflexivity. rewrite get_set_eq.
  unfold get_robust. rewrite Hc. unfold align. rewrite align_floats_nil.
  rewrite profit_margins_float by (right; eauto).
  rewrite values_numeric_robust. cbn [values]. do 2 f_equal.
  assert (Hlen : length (to_numeric_robust sp 0) = nrows df).
  { rewrite to_numeric_robust_length. eapply aligned_get; eauto. }
  revert Hlen. generalize (to_numeric_robust sp 0) as l.
  generalize (nrows df) as n.
  induction n as [|n IH]; intros [|p l] Hlen; simpl in *; try lia; auto.
  rewrite (profit_margin_of_nan_cogs p nan eq_refl). f_equal.
  apply IH. lia.
Qed.

Lemma missing_cogs_zero_margin_witness :
  exists x,
    calculate_features (backend := Backends.stable) Examples.sample_scorer
      (mkFrame [0; 1] [("price_usd", FloatSeries [10; 20]%float)]) = Some x /\
    get_col "profit_margin" x = Some (FloatSeries [0; 0]%float).
Proof.
  exact (missing_cogs_zero_margin (backend := Backends.stable)
           Examples.sample_scorer
           (mkFrame [0; 1] [("price_usd", FloatSeries [10; 20]%float)])
           (FloatSeries [10; 20]%float) eq_refl eq_refl eq_refl).
Defined.

Section MoreFeatures.

Context {backend : Pandas}.
Variable self : ProductScorer.

Lemma map_tier_weight tiers :
  map (fillna 0) (map (map_tier self) tiers) = map (tier_weight self) tiers.
Proof.
  rewrite map_map. apply map_ext. intros [t|]; simpl; [|reflexivity].
  destruct (assoc t (brand_tier_map self)); reflexivity.
Qed.

End MoreFeatures.

(** X9: the other derived features.  [sales_velocity] and [engagement] are
    the coerced [volume_sold_last_month] and [views_last_month], dtype kept
    (an [int64] column stays [int64]); where such a column is absent the
    feature is a [float64] column of [NaN] (the empty default is coerced
    before it is laid over the rows).  With a non-empty tier mapping the
    [brand_tier_weight] of a record is the weight of its tier, 0 for a tier
    the mapping does not know, for a missing tier and for a weight that is no
    number; it is 0 for every record when the mapping is empty.  No other
    column changes and no row moves. *)
Theorem calculate_features_derived {backend : Pandas} (self : ProductScorer)
        (df : DataFrame) (sp : Series) :
  aligned df = true ->
  get_col "price_usd" df = Some sp ->
  exists x,
    calculate_features self df = Some x /\
    index x = index df /\
    get_col "sales_velocity" x
    = Some match get_col "volume_sold_last_month" df with
           | Some s => numeric_robust s 0
           | None => FloatSeries (repeat nan (nrows df))
           end /\
    get_col "engagement" x
    = Some match get_col "views_last_month" df with
           | Some s => numeric_robust s 0
           | None => FloatSeries (repeat nan (nrows df))
           end /\
    (forall tiers,
        get_col "brand_tier" df = Some (ObjSeries tiers) ->
        brand_tier_map self <> [] ->
        get_col "brand_tier_weight" x
        = Some (FloatSeries (map (tier_weight self) tiers))) /\
    (brand_tier_map self = [] ->
     get_col "brand_tier_weight" x
     = Some (IntSeries (repeat 0%Z (nrows df)))) /\
    (forall g, ~ In g [ "profit_margin"; "sales_velocity"; "engagement";
                        "brand_tier_weight" ] ->
               get_col g x = get_col g df).
Proof.
  intros Hal Hp. unfold calculate_features. rewrite Hp.
  set (f1 := set_col "profit_margin" _ df).
  assert (Hnum : forall name,
             String.eqb "profit_margin" name = false ->
             align (nrows df) (get_robust name f1)
             = match get_col name df with
               | Some s => numeric_robust s 0
               | None => FloatSeries (repeat nan (nrows df))
               end).
  { intros name Hne. unfold get_robust, f1. rewrite get_set_neq by assumption.
    destruct (get_col name df) as [s|] eqn:E.
    - apply align_id. rewrite numeric_robust_len. eapply aligned_get; eauto.
    - unfold align. now rewrite align_floats_nil. }
  set (f2 := set_col "sales_velocity" _ f1).
  assert (Hnum2 : get_robust "views_last_month" f2
                  = get_robust "views_last_month" f1).
  { unfold get_robust, f2. now rewrite get_set_neq by reflexivity. }
  set (f3 := set_col "engagement" _ f2).
  assert (Hbt : get_col "brand_tier" f3 = get_col "brand_tier" df).
  { unfold f3, f2, f1. now rewrite !get_set_neq by reflexivity. }
  assert (Hsv : get_col "sales_velocity" f3
                = Some match get_col "volume_sold_last_month" df with
                       | Some s => numeric_robust s 0
                       | None => FloatSeries (repeat nan (nrows df))
                       end).
  { unfold f3. rewrite get_set_neq by reflexivity. unfold f2.
    rewrite get_set_eq. now rewrite (Hnum "volume_sold_last_month" eq_refl). }
  assert (Hen : get_col "engagement" f3
                = Some match get_col "views_last_month" df with
                       | Some s => numeric_robust s 0
                       | None => FloatSeries (repeat nan (nrows df))
                       end).
  { unfold f3. rewrite get_set_eq, Hnum2.
    now rewrite (Hnum "views_last_month" eq_refl). }
  assert (Hother : forall g,
             ~ In g [ "profit_margin"; "sales_velocity"; "engagement";
                      "brand_tier_weight" ] ->
             forall v, get_col g (set_col "brand_tier_weight" v f3)
                       = get_col g df).
  { intros g Hg v.
    assert (Hd : forall i, In i [ "profit_margin"; "sales_velocity";
                                  "engagement"; "brand_tier_weight" ] ->
                           String.eqb i g = false)
      by (intros i Hi; eapply not_in_eqb; eauto).
    unfold f3, f2, f1. rewrite !get_set_neq; auto; apply Hd; simpl; tauto. }
  eexists. split; [reflexivity|].
  rewrite Hbt.
  destruct (get_col "brand_tier" df) as [sb|] eqn:Eb;
    [destruct (brand_tier_map self) as [|kv rest] eqn:Em|];
    unfold set_int_scalar.
  all: split; [reflexivity|].
  all: split; [rewrite get_set_neq by reflexivity; exact Hsv|].
  all: split; [rewrite get_set_neq by reflexivity; exact Hen|].
  all: split; [|split; [|intros g Hg; now apply Hother]].
  - intros tiers _ Hne. congruence.
  - intros _. now rewrite get_set_eq.
  - intros tiers [= ->] _. rewrite get_set_eq. simpl series_map.
    now rewrite map_tier_weight.
  - discriminate.
  - discriminate.
  - intros _. now rewrite get_set_eq.
Qed.

(** The table of the tests: the sales volumes are [int64] and stay so. *)
Lemma calculate_features_derived_witness :
  exists x,
    calculate_features (backend := Backends.stable) Examples.sample_scorer
      (preprocess_data (backend := Backends.stable) Examples.sample_data)
    = Some x /\
    get_col "brand_tier_weight" x = Some (FloatSeries [1; 0.5; 0]%float) /\
    get_col "sales_velocity" x = Some (IntSeries [100; 50; 10]%Z).
Proof.
  destruct (calculate_features_derived (backend := Backends.stable)
              Examples.sample_scorer
              (preprocess_data (backend := Backends.stable)
                 Examples.sample_data)
              (IntSeries [100; 50; 30]%Z) eq_refl eq_refl)
    as [x [Hx [_ [Hsv [_ [Hbt _]]]]]].
  exists x. split; [exact Hx|]. split.
  - apply (Hbt [OStr "A"; OStr "B"; OStr "C"]); [reflexivity | discriminate].
  - exact Hsv.
Defined.

(* ================================================================== *)
(** ** Further properties: normalisation and ranking *)

(** X10: [normalize_features] only adds the four normalised columns: the rows
    and their labels stay, every column under another name is untouched, and
    each normalised column is a float column with one entry per row. *)
Theorem normalize_features_frame {backend : Pandas} (df : DataFrame) :
  aligned df = true ->
  index (normalize_features df) = index df /\
  aligned (normalize_features df) = true /\
  (forall g, ~ In g (map norm_name features_to_normalize) ->
             get_col g (normalize_features df) = get_col g df) /\
  (forall feature, In feature features_to_normalize ->
     exists l,
       get_col (norm_name feature) (normalize_features df)
       = Some (FloatSeries l) /\
       length l = nrows df).
Proof.
  intros Hal.
  split; [apply normalize_features_index|].
  split; [now apply normalize_features_aligned|].
  split.
  - intros g Hg.
    assert (Hd : forall f, In f features_to_normalize ->
                           String.eqb (norm_name f) g = false).
    { intros f Hf. apply (not_in_eqb g _ _ Hg). now apply in_map. }
    unfold normalize_features, features_to_normalize in *. cbn [fold_left].
    rewrite !normalize_step_other; auto; apply Hd; simpl; tauto.
  - intros feature Hin. rewrite (normalize_features_column df feature Hin).
    assert (Hlen : series_len (normalized (get_col feature df) (nrows df))
                   = nrows df).
    { apply normalized_len. intros s Hs. eapply aligned_get; eauto. }
    assert (Hf : exists l, normalized (get_col feature df) (nrows df)
                           = FloatSeries l).
    { unfold normalized. destruct (get_col feature df) as [s|]; [|eauto].
      destruct (negb (series_len s =? 0)%nat); [|eauto].
      destruct (numeric_robust s 0) as [l|l|l];
        repeat match goal with
               | |- context [if ?b then _ else _] => destruct b
               end; eauto. }
    destruct Hf as [l Hl]. rewrite Hl in *. eauto.
Qed.

Lemma normalize_features_frame_witness :
  aligned Examples.two_records = true /\
  index (normalize_features (backend := Backends.stable) Examples.two_records)
  = index Examples.two_records.
Proof.
  split; [reflexivity|].
  exact (proj1 (normalize_features_frame (backend := Backends.stable)
                  Examples.two_records eq_refl)).
Defined.

Lemma head_series_twice a b s :
  head_series a (head_series b s) = head_series (Nat.min a b) s.
Proof. destruct s; simpl; now rewrite firstn_firstn. Qed.

Lemma get_col_head g n df :
  get_col g (head n df)
  = option_map (head_series (head_count n (nrows df))) (get_col g df).
Proof. unfold head, get_col; simpl. apply lookup_map_columns. Qed.

Lemma head_count_le n len : head_count n len <= len.
Proof. unfold head_count. destruct (0 <=? n)%Z; lia. Qed.

Lemma head_count_twice k k' len :
  (0 <= k <= k')%Z ->
  Nat.min (head_count k (head_count k' len)) (head_count k' len)
  = head_count k len.
Proof.
  intros H. unfold head_count.
  destruct (Z.leb_spec 0 k); destruct (Z.leb_spec 0 k'); lia.
Qed.

(** Cutting to [k] rows after cutting to [k' >= k] rows is cutting to [k]
    rows. *)
Lemma head_head k k' df :
  (0 <= k <= k')%Z -> head k (head k' df) = head k df.
Proof.
  intros H. unfold head at 1. rewrite nrows_head.
  unfold head; simpl. f_equal.
  - rewrite firstn_firstn. now rewrite head_count_twice.
  - unfold map_columns. rewrite map_map. apply map_ext. intros [c s]; simpl.
    now rewrite head_series_twice, head_count_twice.
Qed.

Section MoreRanker.

Context {backend : Pandas}.

Lemma rank_products_head df k k' :
  (0 <= k <= k')%Z -> rank_products df k = head k (rank_products df k').
Proof.
  intros H. unfold rank_products. cbv zeta. symmetry. now apply head_head.
Qed.

End MoreRanker.

(** X11: the rankings of [rank_products] are nested: for [0 <= k <= k'] the
    top [k] is the first [k] rows of the top [k'], ranks included; and every
    [top_n] at or above the number of rows gives the same, whole, ranking. *)
Theorem rank_products_nested {backend : Pandas} (df : DataFrame) (k k' : Z) :
  (0 <= k <= k')%Z ->
  rank_products df k = head k (rank_products df k') /\
  nrows (rank_products df k) = Nat.min (Z.to_nat k) (nrows df) /\
  ((Z.of_nat (nrows df) <= k)%Z -> rank_products df k = rank_products df k').
Proof.
  intros H.
  assert (Hn : forall s,
             nrows (set_col "rank" s (reset_index (sort_stage df))) = nrows df).
  { intros s. rewrite nrows_set_col. unfold reset_index, nrows at 1; simpl.
    now rewrite length_seq, nrows_sort_stage. }
  split; [now apply rank_products_head|]. split.
  - unfold rank_products. cbv zeta. rewrite nrows_head, Hn.
    unfold head_count. destruct (Z.leb_spec 0 k); [reflexivity | lia].
  - intros Hk. unfold rank_products. cbv zeta. unfold head. rewrite Hn.
    assert (E : head_count k (nrows df) = head_count k' (nrows df)).
    { unfold head_count.
      destruct (Z.leb_spec 0 k); destruct (Z.leb_spec 0 k'); lia. }
    now rewrite E.
Qed.

Lemma rank_products_nested_witness :
  rank_products (backend := Backends.stable) Examples.tied_pair 1
  = head 1 (rank_products (backend := Backends.stable) Examples.tied_pair 2).
Proof.
  exact (proj1 (rank_products_nested (backend := Backends.stable)
                  Examples.tied_pair 1 2 ltac:(lia))).
Defined.

(* ================================================================== *)
(** ** Further properties: the whole run, record by record *)

Lemma NoDup_firstn_of {A} k (l : list A) : NoDup l -> NoDup (firstn k l).
Proof.
  intros H. rewrite <- (firstn_skipn k l) in H.
  now apply NoDup_app_remove_r in H.
Qed.

Lemma head_take_series k idx s :
  head_series k (take_series idx s) = take_series (firstn k idx) s.
Proof. destruct s; simpl; now rewrite firstn_map. Qed.

Section MoreOrchestrator.

Context {backend : Pandas}.
Variable self : ProductScorer.

Lemma nrows_ranked_full df s :
  nrows (set_col "rank" s (reset_index (sort_stage df))) = nrows df.
Proof.
  rewrite nrows_set_col. unfold reset_index, nrows at 1; simpl.
  now rewrite length_seq, nrows_sort_stage.
Qed.

(** A column of the ranked table other than [score] and [rank]: the cells of
    the input column at the first positions of the indexer. *)
Lemma rank_products_column df top_n g :
  (forall l, align (nrows df) (get_robust "score" df) <> IntSeries l) ->
  String.eqb "score" g = false -> String.eqb "rank" g = false ->
  get_col g (rank_products df top_n)
  = option_map
      (take_series
         (firstn (head_count top_n (nrows df))
            (argsort_desc
               (align_floats (nrows df) (get_numeric "score" df)))))
      (get_col g df).
Proof.
  intros Hni Hs Hr. unfold rank_products. cbv zeta.
  rewrite get_col_head, nrows_ranked_full, get_set_neq by assumption.
  rewrite (sort_stage_keys df Hni).
  unfold reset_index, take_rows, get_col; simpl.
  rewrite lookup_map_columns, lookup_upsert_neq by assumption.
  destruct (lookup g (columns df)) as [s|]; simpl; [|reflexivity].
  now rewrite head_take_series.
Qed.

Lemma rank_products_score df top_n :
  (forall l, align (nrows df) (get_robust "score" df) <> IntSeries l) ->
  get_col "score" (rank_products df top_n)
  = Some (FloatSeries
            (map (fun i => nth i (align_floats (nrows df)
                                    (get_numeric "score" df)) nan)
               (firstn (head_count top_n (nrows df))
                  (argsort_desc
                     (align_floats (nrows df) (get_numeric "score" df)))))).
Proof.
  intros Hni. unfold rank_products. cbv zeta.
  rewrite get_col_head, nrows_ranked_full, get_set_neq by reflexivity.
  rewrite (sort_stage_keys df Hni).
  unfold reset_index, take_rows, get_col; simpl.
  rewrite lookup_map_columns, lookup_upsert_eq. simpl.
  now rewrite firstn_map.
Qed.

(** The table that reaches the ranker and the keys it is sorted on. *)
Lemma scored_keys x :
  wf_frame x = true ->
  let normed := normalize_features (apply_filters self x) in
  aligned normed = true /\
  nrows (scored self x) = nrows normed /\
  (forall g, String.eqb "score" g = false ->
             get_col g (scored self x) = get_col g normed) /\
  align_floats (nrows (scored self x)) (get_numeric "score" (scored self x))
  = map (record_score self normed) (seq 0 (nrows normed)).
Proof.
  intros Hwf normed.
  destruct (apply_filters_frame self x Hwf) as [_ [_ [_ Hwf']]].
  apply wf_frame_spec in Hwf' as [Hal' _].
  pose proof (normalize_features_aligned _ Hal') as HalN. fold normed in HalN.
  unfold scored. fold normed. rewrite (calculate_scores_eq self _ HalN).
  cbn [fst]. split; [exact HalN|]. split; [reflexivity|]. split.
  - intros g Hg. now apply get_set_neq.
  - rewrite nrows_set_col. unfold get_numeric. rewrite get_set_eq.
    cbn [to_numeric_robust]. rewrite map_map.
    apply align_floats_id. now rewrite length_map, length_seq.
Qed.

Lemma apply_filters_keeps x g :
  wf_frame x = true ->
  get_col g x <> None -> get_col g (apply_filters self x) <> None.
Proof.
  intros Hwf Hg. unfold apply_filters, reset_index, get_col; simpl.
  destruct (filter_stage_selection self x Hwf) as [-> _].
  unfold take_rows; simpl. now apply get_col_map_some.
Qed.

Lemma ranked_positions_facts normed top_n :
  NoDup (ranked_positions self normed top_n) /\
  Forall (fun p => p < nrows normed) (ranked_positions self normed top_n) /\
  length (ranked_positions self normed top_n)
  = head_count top_n (nrows normed).
Proof.
  unfold ranked_positions.
  set (keys := map (record_score self normed) (seq 0 (nrows normed))).
  pose proof (argsort_desc_perm keys) as Hp.
  assert (Hk : length keys = nrows normed)
    by (unfold keys; now rewrite length_map, length_seq).
  rewrite Hk in Hp.
  split; [|split].
  - apply NoDup_firstn_of.
    apply (Permutation_NoDup (Permutation_sym Hp)), seq_NoDup.
  - apply Forall_forall. intros p Hin.
    apply (proj1 (Forall_forall _ _) (permutation_bounded _ _ Hp)).
    rewrite <- (firstn_skipn (head_count top_n (nrows normed))).
    apply in_or_app. now left.
  - rewrite length_firstn, argsort_desc_length, Hk.
    pose proof (head_count_le top_n (nrows normed)). lia.
Qed.

(** The whole run on a loaded table that survives the filter: every output
    row is the record at one position of the filtered table. *)
Lemma process_rows df top_n x :
  wf_frame df = true ->
  calculate_features self (preprocess_data df) = Some x ->
  empty df = false -> empty (apply_filters self x) = false ->
  let kept := apply_filters self x in
  let normed := normalize_features kept in
  let picks :=
    ranked_positions self normed (from_option (default_top_n self) top_n) in
  exists names brands prices,
    get_col "Product Name" kept = Some names /\
    get_col "Brand" kept = Some brands /\
    get_col "price_usd" kept = Some prices /\
    process self df top_n
    = Some (mkFrame (seq 0 (length picks))
              [ ("Product Name", take_series picks names);
                ("Brand", take_series picks brands);
                ("Price (USD)", take_series picks prices);
                ("score", FloatSeries (map (record_score self normed) picks));
                ("rank", IntSeries (map Z.of_nat (seq 1 (length picks)))) ]).
Proof.
  intros Hwf Ex He1 He2 kept normed picks.
  set (t := from_option (default_top_n self) top_n) in *.
  destruct (calculate_features_wf self (preprocess_data df) x
              (preprocess_data_wf df Hwf) (preprocess_has_price df) Ex)
    as [Hwfx [_ [Hkeep _]]].
  destruct (scored_keys x Hwfx) as [HalN [HnS [HcolS Hkeys]]].
  fold kept in HalN, HnS, HcolS, Hkeys. fold normed in HalN, HnS, HcolS, Hkeys.
  destruct (scored_facts self x Hwfx) as [HalS [_ [[sc Hsc] _]]].
  destruct (rank_products_columns (scored self x) t _ HalS Hsc)
    as [HnR [HalR [Hrank _]]].
  destruct (ranked_positions_facts normed t) as [_ [Hb Hlen]].
  fold picks in Hb, Hlen.
  pose proof (float_score_not_int (scored self x) sc Hsc) as Hni.
  assert (Hin : forall g, In g (map snd column_map) ->
                          exists c, get_col g kept = Some c).
  { intros g Hg. apply some_of_not_none, apply_filters_keeps; auto.
    apply Hkeep. now apply fold_preprocess_sets. }
  assert (Hcol : forall g c,
             String.eqb "score" g = false -> String.eqb "rank" g = false ->
             ~ In g (map norm_name features_to_normalize) ->
             get_col g kept = Some c ->
             get_col g (rank_products (scored self x) t)
             = Some (take_series picks c)).
  { intros g c Hs Hr Hg Hc.
    rewrite (rank_products_column _ _ g Hni Hs Hr), Hkeys, HnS, (HcolS g Hs).
    destruct (normalize_features_frame kept) as [_ [_ [Hother _]]].
    { destruct (apply_filters_frame self x Hwfx) as [_ [_ [_ Hw]]].
      now apply wf_frame_spec in Hw as [Hal _]. }
    unfold normed. rewrite (Hother g Hg), Hc. reflexivity. }
  destruct (Hin "Product Name") as [c1 H1]; [simpl; tauto|].
  destruct (Hin "Brand") as [c2 H2]; [simpl; tauto|].
  destruct (Hin "price_usd") as [c3 H3]; [simpl; tauto|].
  exists c1, c2, c3.
  split; [exact H1|]. split; [exact H2|]. split; [exact H3|].
  rewrite (process_unfold self df top_n x Ex), He1, He2. cbv zeta. fold t.
  assert (Hscore : get_col "score" (rank_products (scored self x) t)
                   = Some (FloatSeries (map (record_score self normed) picks))).
  { rewrite (rank_products_score _ _ Hni), Hkeys, HnS. do 2 f_equal.
    apply map_ext_in. intros i Hi.
    pose proof (proj1 (Forall_forall _ _) Hb i Hi) as Hlt.
    rewrite (nth_indep _ nan (record_score self normed 0))
      by (now rewrite length_map, length_seq).
    rewrite map_nth, seq_nth by assumption. reflexivity. }
  assert (Hnot : forall g, In g ["Product Name"; "Brand"; "price_usd"] ->
                           ~ In g (map norm_name features_to_normalize)).
  { intros g Hg Hg'. simpl in Hg, Hg'.
    repeat match goal with
           | H : _ \/ _ |- _ => destruct H
           | H : False |- _ => destruct H
           end; subst; discriminate. }
  assert (R1 := Hcol "Product Name" c1 eq_refl eq_refl
                  (Hnot _ (or_introl eq_refl)) H1).
  assert (R2 := Hcol "Brand" c2 eq_refl eq_refl
                  (Hnot _ (or_intror (or_introl eq_refl))) H2).
  assert (R3 := Hcol "price_usd" c3 eq_refl eq_refl
                  (Hnot _ (or_intror (or_intror (or_introl eq_refl)))) H3).
  rewrite (final_output_exact _ _ _ _ _ _ HalR R1 R2 R3 Hscore Hrank).
  cbn [select_columns get_col columns lookup String.eqb Ascii.eqb Bool.eqb
       index out_cols].
  rewrite HnR, HnS, Hlen. reflexivity.
Qed.

End MoreOrchestrator.

(** X12: every row [process] returns is one surviving record, whole.  On a
    loaded table that survives the filter the output is read off the filtered
    table at a list of positions: distinct positions of that table, as many
    as [head] leaves, the first of the ranking order of the scores; the name,
    the brand, the price and the score of an output row are those of the
    record at its position, and the ranks count 1, 2, ... *)
Theorem process_rows_are_records {backend : Pandas} (self : ProductScorer)
        (df : DataFrame) (top_n : option Z) (x : DataFrame) :
  wf_frame df = true ->
  calculate_features self (preprocess_data df) = Some x ->
  empty df = false -> empty (apply_filters self x) = false ->
  let kept := apply_filters self x in
  let normed := normalize_features kept in
  let picks :=
    ranked_positions self normed (from_option (default_top_n self) top_n) in
  NoDup picks /\
  Forall (fun p => p < nrows kept) picks /\
  length picks
  = head_count (from_option (default_top_n self) top_n) (nrows kept) /\
  exists names brands prices,
    get_col "Product Name" kept = Some names /\
    get_col "Brand" kept = Some brands /\
    get_col "price_usd" kept = Some prices /\
    process self df top_n
    = Some (mkFrame (seq 0 (length picks))
              [ ("Product Name", take_series picks names);
                ("Brand", take_series picks brands);
                ("Price (USD)", take_series picks prices);
                ("score", FloatSeries (map (record_score self normed) picks));
                ("rank", IntSeries (map Z.of_nat (seq 1 (length picks)))) ]).
Proof.
  intros Hwf Ex He1 He2 kept normed picks.
  assert (Hn : nrows normed = nrows kept).
  { unfold normed, nrows. now rewrite normalize_features_index. }
  destruct (ranked_positions_facts self normed
              (from_option (default_top_n self) top_n)) as [Hnd [Hb Hlen]].
  fold picks in Hnd, Hb, Hlen. rewrite Hn in Hb, Hlen.
  split; [exact Hnd|]. split; [exact Hb|]. split; [exact Hlen|].
  exact (process_rows self df top_n x Hwf Ex He1 He2).
Qed.

(** The table of the tests, top 2: Product C lacks stock, A outranks B. *)
Lemma process_rows_are_records_witness :
  process (backend := Backends.stable) Examples.sample_scorer
    Examples.sample_data (Some 2%Z)
  = Some (mkFrame [0; 1]
            [ ("Product Name", ObjSeries [OStr "Product A"; OStr "Product B"]);
              ("Brand", ObjSeries [OStr "Brand X"; OStr "Brand Y"]);
              ("Price (USD)", IntSeries [100; 50]%Z);
              ("score", FloatSeries [1; 0]%float);
              ("rank", IntSeries [1; 2]%Z) ]).
Proof.
  destruct (process_rows_are_records (backend := Backends.stable)
              Examples.sample_scorer Examples.sample_data (Some 2%Z)
              Examples.sample_features eq_refl eq_refl eq_refl eq_refl)
    as [_ [_ [_ [names [brands [prices [H1 [H2 [H3 H]]]]]]]]].
  vm_compute in H1, H2, H3.
  injection H1 as <-. injection H2 as <-. injection H3 as <-.
  rewrite H. vm_compute. reflexivity.
Defined.

Lemma head_empty_frame k names : head k (empty_frame names) = empty_frame names.
Proof.
  unfold head, empty_frame, nrows; simpl.
  rewrite firstn_nil. f_equal.
  unfold map_columns. rewrite map_map. apply map_ext. intros c; simpl.
  now rewrite firstn_nil.
Qed.

Lemma ranked_positions_prefix {backend : Pandas} (self : ProductScorer)
      normed k k' :
  (0 <= k <= k')%Z ->
  ranked_positions self normed k
  = firstn (head_count k (length (ranked_positions self normed k')))
           (ranked_positions self normed k').
Proof.
  intros H.
  destruct (ranked_positions_facts self normed k') as [_ [_ ->]].
  unfold ranked_positions. rewrite firstn_firstn.
  now rewrite head_count_twice.
Qed.

(** X13: the outputs of [process] are nested: on a loaded table the result
    for [top_n = k] is the first [k] rows of the result for any
    [top_n = k' >= k >= 0], with the same names, brands, prices, scores and
    ranks. *)
Theorem process_top_n_prefix {backend : Pandas} (self : ProductScorer)
        (df : DataFrame) (k k' : Z) :
  wf_frame df = true -> (0 <= k <= k')%Z ->
  process self df (Some k) = option_map (head k) (process self df (Some k')).
Proof.
  intros Hwf Hk. destruct (process_features self df) as [x Ex].
  destruct (empty df) eqn:He1.
  { rewrite !(process_unfold self df _ x Ex), He1. simpl.
    now rewrite head_empty_frame. }
  destruct (empty (apply_filters self x)) eqn:He2.
  { rewrite !(process_unfold self df _ x Ex), He1, He2. simpl.
    now rewrite head_empty_frame. }
  destruct (process_rows self df (Some k) x Hwf Ex He1 He2)
    as [c1 [c2 [c3 [H1 [H2 [H3 ->]]]]]].
  destruct (process_rows self df (Some k') x Hwf Ex He1 He2)
    as [d1 [d2 [d3 [G1 [G2 [G3 ->]]]]]].
  rewrite H1 in G1. injection G1 as <-.
  rewrite H2 in G2. injection G2 as <-.
  rewrite H3 in G3. injection G3 as <-.
  cbn [from_option option_map].
  set (normed := normalize_features (apply_filters self x)).
  rewrite (ranked_positions_prefix self normed k k' Hk).
  set (P := ranked_positions self normed k').
  unfold head, nrows. cbn [index columns]. rewrite length_seq.
  set (kk := head_count k (length P)).
  assert (Hkk : kk <= length P) by apply head_count_le.
  assert (HL : length (firstn kk P) = kk) by (rewrite length_firstn; lia).
  rewrite HL. cbn [map_columns map fst snd head_series].
  rewrite !head_take_series, !firstn_map, !firstn_seq_le by assumption.
  reflexivity.
Qed.

Lemma process_top_n_prefix_witness :
  process (backend := Backends.stable) Examples.sample_scorer
    Examples.sample_data (Some 1%Z)
  = option_map (head 1)
      (process (backend := Backends.stable) Examples.sample_scorer
         Examples.sample_data (Some 2%Z)).
Proof.
  exact (process_top_n_prefix (backend := Backends.stable)
           Examples.sample_scorer Examples.sample_data 1 2 eq_refl
           ltac:(lia)).
Defined.

Section Fallback.

Context {backend : Pandas}.

Lemma apply_filters_no_filters self x :
  min_stock (filters self) = None ->
  max_inventory_days (filters self) = None ->
  apply_filters self x = reset_index x.
Proof.
  intros H1 H2. unfold apply_filters, filter_stage. now rewrite H1, H2.
Qed.

Lemma map_const {A B} (b : B) (l : list A) :
  map (fun _ => b) l = repeat b (length l).
Proof. induction l as [|a l IH]; simpl; congruence. Qed.

End Fallback.

(** X14: with no weights file, or one that is no YAML, the settings fall back
    to empty weights, and the whole run degrades without failing: nothing is
    filtered out, every record scores 0, and the output is the first
    [min 10 n] rows of whatever order the sort leaves [n] tied records in. *)
Theorem fallback_weights_all_zero {backend : Pandas} (f : Callers.WeightsFile)
        (df : DataFrame) :
  f = Callers.WeightsMissing \/ f = Callers.WeightsMalformed ->
  wf_frame df = true -> empty df = false ->
  exists names brands prices,
    process (init (Callers.load_weights f)) df None
    = Some (mkFrame (seq 0 (Nat.min 10 (nrows df)))
              [ ("Product Name", names); ("Brand", brands);
                ("Price (USD)", prices);
                ("score", FloatSeries (repeat 0%float (Nat.min 10 (nrows df))));
                ("rank",
                 IntSeries (map Z.of_nat (seq 1 (Nat.min 10 (nrows df))))) ]).
Proof.
  intros Hf Hwf He.
  set (self := init (Callers.load_weights f)).
  assert (Hcfg : scoring_weights self = [] /\
                 min_stock (filters self) = None /\
                 max_inventory_days (filters self) = None /\
                 default_top_n self = 10%Z).
  { unfold self. destruct Hf as [-> | ->]; simpl; auto. }
  destruct Hcfg as [Hw [Hms [Hmd Htop]]].
  destruct (process_features self df) as [x Ex].
  destruct (calculate_features_wf self (preprocess_data df) x
              (preprocess_data_wf df Hwf) (preprocess_has_price df) Ex)
    as [Hwfx [Hidx [Hkeep _]]].
  assert (Hnx : nrows x = nrows df).
  { unfold nrows. now rewrite Hidx, preprocess_data_index. }
  assert (Hnk : nrows (apply_filters self x) = nrows df).
  { rewrite (apply_filters_no_filters self x Hms Hmd).
    unfold reset_index, nrows at 1; simpl. now rewrite length_seq. }
  assert (Hn0 : nrows df <> 0).
  { intros E. apply not_true_iff_false in He. apply He.
    apply empty_spec. now left. }
  assert (He2 : empty (apply_filters self x) = false).
  { apply not_true_iff_false. intros E.
    apply (apply_filters_empty_rows self x Hwfx) in E; [lia|].
    apply Hkeep, preprocess_has_price. }
  destruct (process_rows self df None x Hwf Ex He He2)
    as [c1 [c2 [c3 [_ [_ [_ ->]]]]]].
  set (normed := normalize_features (apply_filters self x)).
  destruct (ranked_positions_facts self normed
              (from_option (default_top_n self) None)) as [_ [_ Hlen]].
  assert (Hn : nrows normed = nrows df).
  { unfold normed, nrows at 1. rewrite normalize_features_index. exact Hnk. }
  rewrite Hn in Hlen. cbn [from_option] in *. rewrite Htop in *.
  change (head_count 10 (nrows df)) with (Nat.min 10 (nrows df)) in Hlen.
  assert (Hz : map (record_score self normed)
                   (ranked_positions self normed 10)
               = repeat 0%float (Nat.min 10 (nrows df))).
  { rewrite <- Hlen.
    transitivity (map (fun _ : nat => 0%float)
                      (ranked_positions self normed 10)); [|apply map_const].
    apply map_ext. intros p. unfold record_score, weighted_sum.
    rewrite Hw. reflexivity. }
  exists (take_series (ranked_positions self normed 10) c1),
         (take_series (ranked_positions self normed 10) c2),
         (take_series (ranked_positions self normed 10) c3).
  now rewrite Hlen, Hz.
Qed.

Lemma fallback_weights_all_zero_witness :
  exists names brands prices,
    process (backend := Backends.stable)
      (init (Callers.load_weights Callers.WeightsMissing))
      Examples.sample_data None
    = Some (mkFrame [0; 1; 2]
              [ ("Product Name", names); ("Brand", brands);
                ("Price (USD)", prices);
                ("score", FloatSeries [0; 0; 0]%float);
                ("rank", IntSeries [1; 2; 3]%Z) ]).
Proof.
  exact (fallback_weights_all_zero (backend := Backends.stable)
           Callers.WeightsMissing Examples.sample_data
           (or_introl eq_refl) eq_refl eq_refl).
Defined.

(* ================================================================== *)
(** ** Further properties: the data processor and the ETL flow *)

Section MoreCallers.

Context {backend : Pandas}.
Variable weights : WeightsConfig.

Lemma process_and_score_data_task_eq df :
  empty df = false ->
  Callers.process_and_score_data_task weights df None
  = Callers.process_and_score_data weights df None.
Proof.
  intros He. unfold Callers.process_and_score_data_task. now rewrite He.
Qed.

End MoreCallers.

(** X16: the ETL flow is the full pipeline run with the configured [top_n]:
    it raises when the pipeline raises and otherwise leaves the disk exactly
    as the pipeline does; the second emptiness test and the second default
    for [top_n] in its tasks change nothing. *)
Theorem etl_flow_is_full_pipeline {backend : Pandas} (weights : WeightsConfig)
        (disk : Callers.Disk) :
  Callers.product_ranking_etl_flow weights disk
  = option_map snd (Callers.run_full_pipeline weights disk None).
Proof.
  unfold Callers.product_ranking_etl_flow, Callers.run_full_pipeline,
    Callers.load_raw_data_task.
  destruct (Callers.load_data disk) as [raw_df|]; [|reflexivity].
  destruct (empty raw_df) eqn:He; [reflexivity|]. cbn [negb].
  rewrite (process_and_score_data_task_eq weights raw_df He).
  destruct (Callers.process_and_score_data weights raw_df None) as [p|];
    [|reflexivity].
  unfold Callers.save_ranked_data_task.
  destruct (empty p); reflexivity.
Qed.

(* ================================================================== *)
(** ** Further properties: filtering twice *)





Section FilterTwice.

Context {backend : Pandas}.
Variable self : ProductScorer.




End FilterTwice.



(* ================================================================== *)
(** ** Further properties: a raw table without a stock column *)

Lemma mask_filter_none {A} m (l : list A) :
  Forall (fun b => b = false) m -> mask_filter m l = [].
Proof.
  intros Hm. revert l. induction Hm as [|b m Hb _ IH]; intros [|x l];
    rewrite ?mask_filter_nil_l, ?mask_filter_nil_r; auto.
  rewrite mask_filter_cons, Hb. apply IH.
Qed.

(** X18: the zero default of [preprocess_data] meets the stock filter.  When
    the raw table has no [Units in Stock] column every record is given 0
    units, so under a [min_stock] threshold that 0 does not reach no record
    survives and [process] returns the empty table, whatever else the
    records hold. *)
Theorem missing_stock_column_empties {backend : Pandas} (self : ProductScorer)
        (df : DataFrame) (ms : float) (top_n : option Z) :
  wf_frame df = true ->
  get_col "Units in Stock" df = None ->
  min_stock (filters self) = Some ms ->
  (ms <=? 0)%float = false ->
  process self df top_n = Some (empty_frame out_cols).
Proof.
  intros Hwf Hraw Hms Hlt.
  destruct (process_features self df) as [x Ex].
  rewrite (process_unfold self df top_n x Ex).
  destruct (empty df); [reflexivity|].
  destruct (calculate_features_wf self (preprocess_data df) x
              (preprocess_data_wf df Hwf) (preprocess_has_price df) Ex)
    as [_ [_ [_ Hsame]]].
  assert (Hu : get_col "units_in_stock" x
               = Some (IntSeries (repeat 0%Z (nrows df)))).
  { rewrite (Hsame "units_in_stock") by reflexivity.
    rewrite (preprocess_data_column df "Units in Stock" "units_in_stock")
      by (simpl; tauto).
    unfold canonical_column. now rewrite Hraw. }
  assert (Hidx : index (filter_stage self x) = []).
  { unfold filter_stage. rewrite Hms, Hu.
    set (m := map (fun u => (ms <=? u)%float) _).
    assert (Hm : index (filter_rows m x) = []).
    { unfold filter_rows. cbn [index]. apply mask_filter_none.
      unfold m. cbn [to_numeric_robust]. rewrite !map_repeat.
      rewrite of_Z_0. change (fillna 0 0) with 0%float. rewrite Hlt.
      apply Forall_forall. intros b Hb. now apply repeat_spec in Hb. }
    destruct (max_inventory_days (filters self)); [|exact Hm].
    destruct (get_col "days_of_inventory" (filter_rows m x)); [|exact Hm].
    unfold filter_rows at 1. cbn [index]. rewrite Hm.
    apply mask_filter_nil_r. }
  assert (He : empty (apply_filters self x) = true).
  { apply empty_spec. left.
    unfold apply_filters, reset_index, nrows. cbn [index].
    now rewrite length_seq, Hidx. }
  now rewrite He.
Qed.

Lemma missing_stock_column_empties_witness :
  process (backend := Backends.stable) Examples.sample_scorer
    Examples.tied_catalog None
  = Some (empty_frame out_cols).
Proof.
  exact (missing_stock_column_empties (backend := Backends.stable)
           Examples.sample_scorer Examples.tied_catalog 10%float None
           eq_refl eq_refl eq_refl eq_refl).
Defined.

(* ================================================================== *)
(** ** Further properties: ranking a table that was never scored *)

(** X19: [rank_products] does not need a [score] column.  On a table without
    one it does not raise: the empty default it coerces is laid over the
    rows as missing values, so the ranked table has the rows [head] leaves,
    each with a [NaN] score, in whatever order the sort gives. *)
Theorem rank_products_without_scores {backend : Pandas} (df : DataFrame)
        (top_n : Z) :
  get_col "score" df = None ->
  nrows (rank_products df top_n) = head_count top_n (nrows df) /\
  get_col "score" (rank_products df top_n)
  = Some (FloatSeries (repeat nan (head_count top_n (nrows df)))).
Proof.
  intros Hs. split.
  - unfold rank_products. cbv zeta.
    now rewrite nrows_head, nrows_ranked_full.
  - rewrite (rank_products_score _ _ (no_score_not_int df Hs)).
    unfold get_numeric. rewrite Hs.
    rewrite align_floats_nil. do 2 f_equal.
    set (picks := firstn _ _).
    assert (Hlen : length picks = head_count top_n (nrows df)).
    { unfold picks. rewrite length_firstn, argsort_desc_length, repeat_length.
      pose proof (head_count_le top_n (nrows df)). lia. }
    rewrite <- Hlen.
    transitivity (map (fun _ : nat => nan) picks); [|apply map_const].
    apply map_ext. intros i. apply nth_repeat.
Qed.

Lemma rank_products_without_scores_witness :
  get_col "score"
    (rank_products (backend := Backends.stable) Examples.tied_catalog 3)
  = Some (FloatSeries [nan; nan; nan]).
Proof.
  exact (proj2 (rank_products_without_scores (backend := Backends.stable)
                  Examples.tied_catalog 3 eq_refl)).
Defined.
